(** * express-mvc-router: route synthesis and dispatch

    A shallow embedding of [src/index.js] (class [ExpressMVCRouter]) and the
    properties of its naming resolver, parameter extractor, route
    synthesizer, registrar and render helper.

    Modelling conventions.
    - A JavaScript string is a [string] whose characters are code units
      below 256 (the Latin-1 range); [\s], [\w], [.] and [toLowerCase] are
      modelled on that range.
    - Objects live in a store and are named by their address, so that
      identity ([===]) and in-place mutation are those of the source.
    - A call that throws returns [Throw]. *)

From Stdlib Require Import ZArith String Ascii List Lia Bool.
From stdpp Require Import base option list gmap strings.

Local Open Scope string_scope.
Local Open Scope list_scope.
Local Open Scope nat_scope.

(** ** Strings *)

Module JsString.

(** Code unit of a character. *)
Definition code (c : ascii) : nat := nat_of_ascii c.

(** The regular-expression class [\s] (white space and line terminators)
    restricted to code units below 256. *)
Definition is_space (c : ascii) : bool :=
  let n := code c in
  ((9 <=? n) && (n <=? 13)) || (n =? 32) || (n =? 160).

(** The regular-expression class [\w]. *)
Definition is_word (c : ascii) : bool :=
  let n := code c in
  ((48 <=? n) && (n <=? 57)) || ((65 <=? n) && (n <=? 90))
  || ((97 <=? n) && (n <=? 122)) || (n =? 95).

(** Characters the regular-expression dot does not match. *)
Definition is_line_terminator (c : ascii) : bool :=
  let n := code c in (n =? 10) || (n =? 13).

(** [String.prototype.toLowerCase] on one code unit. *)
Definition lower_char (c : ascii) : ascii :=
  let n := code c in
  if ((65 <=? n) && (n <=? 90))
     || ((192 <=? n) && (n <=? 214)) || ((216 <=? n) && (n <=? 222))
  then ascii_of_nat (n + 32) else c.

Fixpoint toLowerCase (s : string) : string :=
  match s with
  | EmptyString => EmptyString
  | String c s' => String (lower_char c) (toLowerCase s')
  end.

(** [s.charAt(0)]: the first character as a string, empty when [s] is. *)
Definition charAt0 (s : string) : string :=
  match s with
  | EmptyString => EmptyString
  | String c _ => String c EmptyString
  end.

(** [s.substr(1)]. *)
Definition substr1 (s : string) : string :=
  match s with
  | EmptyString => EmptyString
  | String _ s' => s'
  end.

(** Truthiness of a string: non-empty. *)
Definition nonempty (s : string) : bool :=
  match s with
  | EmptyString => false
  | String _ _ => true
  end.

Fixpoint dropWhile (p : ascii -> bool) (s : string) : string :=
  match s with
  | EmptyString => EmptyString
  | String c s' => if p c then dropWhile p s' else s
  end.

Fixpoint all (p : ascii -> bool) (s : string) : bool :=
  match s with
  | EmptyString => true
  | String c s' => p c && all p s'
  end.

Definition trimStart (s : string) : string := dropWhile is_space s.

Fixpoint trimEnd (s : string) : string :=
  match s with
  | EmptyString => EmptyString
  | String c s' =>
      let r := trimEnd s' in
      if is_space c && negb (nonempty r) then EmptyString else String c r
  end.

(** [s.replace(/^\s+|\s+$/g, '')] and [s.trim()]. *)
Definition trim (s : string) : string := trimEnd (trimStart s).

(** [strip_prefix p s] is the rest of [s] after the literal [p], if [s]
    starts with it. *)
Fixpoint strip_prefix (p s : string) : option string :=
  match p, s with
  | EmptyString, _ => Some s
  | String a p', String b s' =>
      if Ascii.eqb a b then strip_prefix p' s' else None
  | String _ _, EmptyString => None
  end.

(** Split at the first occurrence of character [d]: the text before it and
    the text after it. *)
Fixpoint split_first (d : ascii) (s : string) : option (string * string) :=
  match s with
  | EmptyString => None
  | String c s' =>
      if Ascii.eqb c d then Some (EmptyString, s')
      else match split_first d s' with
           | Some (pre, post) => Some (String c pre, post)
           | None => None
           end
  end.

(** [s.replace(/^\/+/, '')]. *)
Definition stripLeadingSlashes (s : string) : string :=
  dropWhile (Ascii.eqb "/"%char) s.

(** Worker of [split(/\s*,\s*/)] on a non-empty string.  [cur] is the
    piece read so far (reversed), [pend] the run of white space read after
    it (reversed), which belongs to the separator when a comma follows and
    to the piece otherwise; [skip] holds while the white space that
    follows a comma is being consumed. *)
Fixpoint splitCommaAux (skip : bool) (cur pend : list ascii) (s : string)
  : list string :=
  match s with
  | EmptyString => [string_of_list_ascii (rev (pend ++ cur))]
  | String c s' =>
      if is_space c then
        if skip then splitCommaAux true cur pend s'
        else splitCommaAux false cur (c :: pend) s'
      else if Ascii.eqb c ","%char then
        string_of_list_ascii (rev cur) :: splitCommaAux true [] [] s'
      else splitCommaAux false (c :: pend ++ cur) [] s'
  end.

(** [s.split(/\s*,\s*/)]. *)
Definition splitComma (s : string) : list string :=
  splitCommaAux false [] [] s.

End JsString.

(** ** The regular expressions of the router *)

Module Pattern.
Import JsString.

(** The first token of [toks], in order, that [s] starts with, and the
    text after it: an anchored alternation [^(t1|t2|...)]. *)
Fixpoint first_token (toks : list string) (s : string)
  : option (string * string) :=
  match toks with
  | [] => None
  | t :: toks' =>
      match strip_prefix t s with
      | Some rest => Some (t, rest)
      | None => first_token toks' s
      end
  end.

Definition implicit_tokens : list string :=
  ["get"; "post"; "put"; "patch"; "delete"].

Definition explicit_tokens : list string :=
  ["GET"; "POST"; "PUT"; "DELETE"; "PATCH"].

(** [/^(get|post|put|patch|delete)/.exec(s)]: capture group 1 and the
    text that follows the match. The pattern has no [i] flag. *)
Definition implicitMethodPattern (s : string) : option (string * string) :=
  first_token implicit_tokens s.

(** [/^\{\s*(GET|POST|PUT|DELETE|PATCH)\s*\}\s*/.exec(s)]: capture group 1
    and the text that follows the match. *)
Definition explicitMethodPattern (s : string) : option (string * string) :=
  match strip_prefix "{" s with
  | None => None
  | Some r =>
      match first_token explicit_tokens (dropWhile is_space r) with
      | None => None
      | Some (tok, r') =>
          match strip_prefix "}" (dropWhile is_space r') with
          | None => None
          | Some r'' => Some (tok, dropWhile is_space r'')
          end
      end
  end.

(** Equality of two characters when letter case is ignored. *)
Definition eqb_ci (a b : ascii) : bool :=
  Ascii.eqb (lower_char a) (lower_char b).

Fixpoint strip_prefix_ci (p s : string) : option string :=
  match p, s with
  | EmptyString, _ => Some s
  | String a p', String b s' =>
      if eqb_ci a b then strip_prefix_ci p' s' else None
  | String _ _, EmptyString => None
  end.

(** A match of the pattern [(controller|ctrl)?\.js], with the [i] flag, at
    the start of [s]: the text that follows it. *)
Definition controllerSuffixPattern (s : string) : option string :=
  match strip_prefix_ci "controller.js" s with
  | Some rest => Some rest
  | None =>
      match strip_prefix_ci "ctrl.js" s with
      | Some rest => Some rest
      | None => strip_prefix_ci ".js" s
      end
  end.

(** [fileName.replace(re, '')] for the pattern above: the leftmost match
    is removed. *)
Fixpoint removeControllerSuffix (s : string) : string :=
  match controllerSuffixPattern s with
  | Some rest => rest
  | None =>
      match s with
      | EmptyString => EmptyString
      | String c s' => String c (removeControllerSuffix s')
      end
  end.

(** [\w*\s*] up to the end of [s]. *)
Definition word_space (s : string) : bool :=
  negb (nonempty (dropWhile is_space (dropWhile is_word s))).

(** The head of the signature pattern up to the end of [s]: optionally
    [\s*function\s+], then optionally [\w*\s*]. It is what may stand
    before the opening parenthesis. *)
Definition signature_head (s : string) : bool :=
  word_space s
  || match strip_prefix "function" (dropWhile is_space s) with
     | Some (String c r) => is_space c && word_space (dropWhile is_space r)
     | _ => false
     end.

(** [src.match(re)] for the signature pattern of [getParameterNames] (the
    head above, an opening parenthesis, a lazy group of any characters
    and a closing parenthesis, anchored at the start): capture group 2
    when the pattern matches. The head holds no parenthesis, so the
    parenthesis matched is the first one of [src]; the lazy group ends at
    the first closing parenthesis and, the dot matching no line
    terminator, fails when one comes before it. *)
Definition signaturePattern (src : string) : option string :=
  match split_first "("%char src with
  | None => None
  | Some (head, tail) =>
      if signature_head head then
        match split_first ")"%char tail with
        | None => None
        | Some (inner, _) =>
            if all (fun c => negb (is_line_terminator c)) inner
            then Some inner else None
        end
      else None
  end.

End Pattern.

(** ** Values and the object store *)

Definition addr := nat.

Inductive value :=
  | VUndefined
  | VNull
  | VBool (b : bool)
  | VNumber (n : Z)
  | VNaN
  | VString (s : string)
  | VRef (a : addr).

(** An object: [members] gives the result of a property read [o[k]] (own or
    inherited; a name that is not there reads [undefined]), [keys] the names
    a [for ... in] loop enumerates, in its order, and [source] the text
    [Function.prototype.toString] returns when the object is callable. *)
Record object := Object {
  members : gmap string value;
  keys : list string;
  source : option string
}.

Inductive error := TypeError.

Inductive result (A : Type) :=
  | Ok (x : A)
  | Throw (e : error).
Arguments Ok {A} x.
Arguments Throw {A} e.

Module Js.

(** Truthiness ([ToBoolean]). *)
Definition truthy (v : value) : bool :=
  match v with
  | VUndefined | VNull | VNaN => false
  | VBool b => b
  | VNumber n => negb (Z.eqb n 0)
  | VString s => JsString.nonempty s
  | VRef _ => true
  end.

(** [a || b]. *)
Definition or (a b : value) : value := if truthy a then a else b.

(** [arguments[i]]. *)
Definition argument (args : list value) (i : nat) : value :=
  default VUndefined (args !! i).

Section Store.
Variable h : gmap addr object.

(** [typeof v === 'function']. *)
Definition is_function (v : value) : bool :=
  match v with
  | VRef a =>
      match h !! a with
      | Some o => bool_decide (is_Some (source o))
      | None => false
      end
  | _ => false
  end.

(** [v[k]] for a value [v] that is neither [undefined] nor [null]; a
    primitive has none of the names read here. *)
Definition get (v : value) (k : string) : value :=
  match v with
  | VRef a =>
      match h !! a with
      | Some o => default VUndefined (members o !! k)
      | None => VUndefined
      end
  | _ => VUndefined
  end.

(** [fn.toString()]. *)
Definition toString (v : value) : option string :=
  match v with
  | VRef a => o ← h !! a; source o
  | _ => None
  end.
End Store.

(** The names [for (k in v)] enumerates. *)
Definition for_in (h : gmap addr object) (a : addr) : list string :=
  match h !! a with
  | Some o => keys o
  | None => []
  end.

Definition set_member (k : string) (v : value) (o : object) : object :=
  {| members := <[k := v]> (members o);
     keys := if bool_decide (k ∈ keys o) then keys o else keys o ++ [k];
     source := source o |}.

(** [target[k] = v] in strict code: a primitive target throws. *)
Definition set (h : gmap addr object) (target : value) (k : string) (v : value)
  : result (gmap addr object) :=
  match target with
  | VRef a =>
      match h !! a with
      | Some o => Ok (<[a := set_member k v o]> h)
      | None => Throw TypeError
      end
  | _ => Throw TypeError
  end.

(** Allocation of a new object. *)
Definition alloc (o : object) (h : gmap addr object) : addr * gmap addr object :=
  let a := fresh (dom h) in (a, <[a := o]> h).

Definition empty_object : object :=
  {| members := ∅; keys := []; source := None |}.

End Js.

(** ** Controllers, routes and the router state *)

(** A class-like controller: [prototype_names] is
    [Object.getOwnPropertyNames(controller.prototype)] and [construct] the
    object [new controller()] evaluates to (its constructor is taken to
    return normally and to leave the other objects of the store as they
    are). *)
Record class_def := ClassOf {
  prototype_names : list string;
  construct : object
}.

(** What a controller file exports: a value whose [typeof] is ["object"]
    (given by its address), a class or constructor function, or any other
    truthy value, which has no [prototype] to enumerate. *)
Inductive controller_def :=
  | ObjectDef (a : addr)
  | ClassDef (c : class_def)
  | InvalidDef.

(** The record [getControllerData] returns. *)
Record controller_data := ControllerData {
  controllerDef : controller_def;
  controllerName : string;
  viewBaseName : string
}.

(** The argument array [routeData] of [addRoute], by index: 0 method, 1 path,
    2 view base name, 3 action name, 4 parameter names ([null] is [None]),
    5 instance, 6 controller name ([undefined] when the caller passes six
    arguments). *)
Record route_data := RouteData {
  rd_method : string;
  rd_path : string;
  rd_viewBaseName : string;
  rd_actionName : string;
  rd_args : option (list string);
  rd_instance : addr;
  rd_controllerName : value
}.

(** The function [controllerClass] built by [addRoute]: a new function
    object ([w_id] tells them apart) closed over the [routeData] of the
    call that built it, whose prototype delegates to [routeData[5]]. *)
Record wrapper := Wrapper {
  w_id : nat;
  w_routeData : route_data
}.

(** An entry of [classesLoaded]. *)
Record loaded_class := LoadedClass {
  instance : addr;
  controller : wrapper
}.

(** The closure [actionFn]: it holds the [routeData] of its own call of
    [addRoute] and the [controllerClass] chosen there. *)
Record handler := Handler {
  h_routeData : route_data;
  h_controllerClass : wrapper
}.

(** A call [router[verb](path, handler)]. *)
Record route := Route {
  verb : string;
  path : string;
  action : handler
}.

(** The fields of an [ExpressMVCRouter] that routing writes:
    [classesLoaded] is [None] until [addRoute] first runs. *)
Record mvc_router := MvcRouter {
  classesLoaded : option (list loaded_class);
  router : list route
}.

Definition initial_router : mvc_router :=
  {| classesLoaded := None; router := [] |}.

Module Synth.
Import JsString Pattern.

(** [getControllerData(controller, fileName)]. *)
Definition getControllerData (controller : controller_def) (fileName : string)
  : controller_data :=
  let controllerName := removeControllerSuffix fileName in
  let viewBaseName := controllerName in
  {| controllerDef := controller;
     controllerName := controllerName;
     viewBaseName := viewBaseName |}.

(** [getMethod(pathName, isExplicit)]. *)
Definition getMethod (pathName : string) (isExplicit : bool) : string :=
  let methodPattern :=
    if isExplicit then explicitMethodPattern else implicitMethodPattern in
  match methodPattern pathName with
  | Some (g1, _) => if nonempty g1 then toLowerCase g1 else "get"
  | None => "get"
  end.

(** The parameter names read off the text of a function. *)
Definition parameterNames (src : string) : option (list string) :=
  match signaturePattern src with
  | Some g2 => Some (if nonempty g2 then splitComma (trim g2) else [])
  | None => None
  end.

(** [getParameterNames(fn)]; callers pass callable values only. *)
Definition getParameterNames (h : gmap addr object) (fn : value)
  : option (list string) :=
  match Js.toString h fn with
  | Some src => parameterNames src
  | None => None
  end.

(** The rewriting of [pathName] between its trimming and the parameter
    loop: ["index"] becomes empty, then a verb token at the start is
    removed and the first character left is lower-cased. *)
Definition barePathName (pathName : string) : string :=
  let pathName := if String.eqb pathName "index" then "" else pathName in
  match implicitMethodPattern pathName with
  | Some (_, rest) =>
      if nonempty rest then toLowerCase (charAt0 rest) ++ substr1 rest
      else rest
  | None => pathName
  end.

(** The action naming resolver: verb and bare name of a raw action name,
    as the two action loops compute them. *)
Definition resolveAction (rawName : string) : string * string :=
  let pathName := trim rawName in
  (getMethod pathName false, barePathName pathName).

(** One turn of the parameter loop. *)
Definition appendParameter (pathName arg : string) : string :=
  pathName ++ (if nonempty pathName then "/" else "") ++ ":" ++ arg.

(** [if (args) for (...) pathName += ...]. *)
Definition appendParameters (pathName : string) (args : option (list string))
  : string :=
  match args with
  | Some names => fold_left appendParameter names pathName
  | None => pathName
  end.

(** The local [controllerName] of the two action loops. *)
Definition pathControllerName (cd : controller_data) : string :=
  if String.eqb (controllerName cd) "default" then "" else controllerName cd.

(** The second argument of [addRoute]. *)
Definition routePath (cd : controller_data) (pathName : string) : string :=
  pathControllerName cd ++ (if nonempty pathName then "/" ++ pathName else "").

(** The condition that guards the body of both action loops. *)
Definition eligible (h : gmap addr object) (inst : addr) (actionName : string)
  : bool :=
  Js.is_function h (Js.get h (VRef inst) actionName)
  && negb (String.eqb (charAt0 actionName) "_").

(** The body of both action loops up to the call of [addRoute]: the
    arguments 0 to 5 of that call; [seventh] is the argument 6. *)
Definition actionRouteData (cd : controller_data) (h : gmap addr object)
    (inst : addr) (actionName : string) (seventh : value) : route_data :=
  let pathName := trim actionName in
  let method := getMethod pathName false in
  let pathName := barePathName pathName in
  let args := getParameterNames h (Js.get h (VRef inst) actionName) in
  let pathName := appendParameters pathName args in
  {| rd_method := method;
     rd_path := routePath cd pathName;
     rd_viewBaseName := viewBaseName cd;
     rd_actionName := actionName;
     rd_args := args;
     rd_instance := inst;
     rd_controllerName := seventh |}.

(** [addRoute(...routeData)]. *)
Definition addRoute (routeData : route_data) (st : mvc_router) : mvc_router :=
  let loaded := default [] (classesLoaded st) in
  let loadedClass :=
    filter (fun item => instance item = rd_instance routeData) loaded in
  let '(controllerClass, loaded) :=
    match loadedClass with
    | item :: _ => (controller item, loaded)
    | [] =>
        let w := {| w_id := length loaded; w_routeData := routeData |} in
        (w, loaded ++ [{| instance := rd_instance routeData; controller := w |}])
    end in
  let actionFn :=
    {| h_routeData := routeData; h_controllerClass := controllerClass |} in
  {| classesLoaded := Some loaded;
     router := router st ++
       [{| verb := rd_method routeData;
           path := "/" ++ stripLeadingSlashes (rd_path routeData);
           action := actionFn |}] |}.

(** [setObjectActions(controllerData, instance, allActions)]: the loop
    runs over the names [for ... in] enumerates on [allActions]. *)
Definition setObjectActions (cd : controller_data) (inst allActions : addr)
    (h : gmap addr object) (st : mvc_router) : mvc_router :=
  fold_left
    (fun st actionName =>
       if eligible h inst actionName
       then addRoute (actionRouteData cd h inst actionName VUndefined) st
       else st)
    (Js.for_in h allActions) st.

(** [setFunctionActions(controllerData, instance, allActions)]. *)
Definition setFunctionActions (cd : controller_data) (inst : addr)
    (allActions : list string) (h : gmap addr object) (st : mvc_router)
  : mvc_router :=
  fold_left
    (fun st actionName =>
       if eligible h inst actionName
       then addRoute (actionRouteData cd h inst actionName
                        (VString (pathControllerName cd))) st
       else st)
    allActions st.

(** The filter of [loadImplicitRoutes] on the prototype's names. *)
Definition visible (x : string) : bool :=
  negb (String.eqb x "constructor") && negb (String.eqb (charAt0 x) "_").

(** [loadImplicitRoutes(controllerData)]. *)
Definition loadImplicitRoutes (cd : controller_data)
    (h : gmap addr object) (st : mvc_router)
  : result (gmap addr object * mvc_router) :=
  match controllerDef cd with
  | ObjectDef a => Ok (h, setObjectActions cd a a h st)
  | ClassDef c =>
      let allActions := List.filter visible (prototype_names c) in
      let '(inst, h) := Js.alloc (construct c) h in
      Ok (h, setFunctionActions cd inst allActions h st)
  | InvalidDef => Throw TypeError
  end.

End Synth.

(** ** Requests, dispatch and the render helper *)

Section Dispatch.
(** The state of the flash-message collaborator. *)
Context {F : Type}.

(** [req.flash]: [undefined], a reader (which may consume what it
    returns), or a value that is not callable. *)
Inductive flash_capability :=
  | FlashUndefined
  | FlashFunction (read : string -> F -> value * F)
  | FlashNotCallable.

(** The members of the request the router reads. *)
Record request := Request {
  req_params : gmap string value;
  req_session : value;
  req_flash : flash_capability
}.

(** The object [new controllerClass(req, res, next, method, pathName,
    viewBaseName, actionName)]: its own members [req], [res] and [next],
    the parameters its [render] closure keeps, and its type. *)
Record dispatch_context := DispatchContext {
  ctx_req : request;
  ctx_res : value;
  ctx_next : value;
  ctx_method : string;
  ctx_pathName : string;
  ctx_viewBaseName : string;
  ctx_actionName : string;
  ctx_class : wrapper
}.

(** What [controller[name]] resolves to: an own member of the context, the
    [constructor] member of the wrapper's prototype, or, through the
    prototype chain, the member of the controller instance. *)
Inductive member :=
  | OwnReq
  | OwnRes
  | OwnNext
  | OwnRender
  | WrapperConstructor
  | InstanceMember (v : value).

Definition lookup_member (h : gmap addr object) (ctx : dispatch_context)
    (name : string) : member :=
  if String.eqb name "req" then OwnReq
  else if String.eqb name "res" then OwnRes
  else if String.eqb name "next" then OwnNext
  else if String.eqb name "render" then OwnRender
  else if String.eqb name "constructor" then WrapperConstructor
  else InstanceMember
         (Js.get h (VRef (rd_instance (w_routeData (ctx_class ctx)))) name).

(** Whether [m.apply(...)] calls something; [req] and [res] are objects
    that are not callable. *)
Definition callable (h : gmap addr object) (m : member) : bool :=
  match m with
  | OwnReq | OwnRes => false
  | OwnNext | OwnRender | WrapperConstructor => true
  | InstanceMember v => Js.is_function h v
  end.

(** The call [callee.apply(this, arguments)] a handler makes. *)
Record invocation := Invocation {
  callee : member;
  this : dispatch_context;
  arguments : list value
}.

(** [new controllerClass(req, res, next, routeData[0], routeData[1],
    routeData[2], routeData[3])] in the handler [hd]. *)
Definition newController (hd : handler) (req : request) (res next : value)
  : dispatch_context :=
  let routeData := h_routeData hd in
  {| ctx_req := req; ctx_res := res; ctx_next := next;
     ctx_method := rd_method routeData;
     ctx_pathName := rd_path routeData;
     ctx_viewBaseName := rd_viewBaseName routeData;
     ctx_actionName := rd_actionName routeData;
     ctx_class := h_controllerClass hd |}.

(** The binding [actionArgs] of the handler. *)
Definition actionArgs (hd : handler) (req : request) : list value :=
  map (fun arg => default VUndefined (req_params req !! arg))
      (default [] (rd_args (h_routeData hd))).

(** [actionFn(req, res, next)]. *)
Definition actionFn (hd : handler) (h : gmap addr object)
    (req : request) (res next : value) : result invocation :=
  let routeData := h_routeData hd in
  let actionArgs := actionArgs hd req in
  let controller := newController hd req res next in
  let m := lookup_member h controller (rd_actionName routeData) in
  if callable h m
  then Ok {| callee := m; this := controller; arguments := actionArgs |}
  else Throw TypeError.

(** The store a render call works on. *)
Record store := Store {
  heap : gmap addr object;
  flash_state : F
}.

(** Computations that read and write the store and may throw. *)
Definition M (A : Type) : Type := store -> result (A * store).

Definition retM {A} (x : A) : M A := fun s => Ok (x, s).

Definition bindM {A B} (m : M A) (k : A -> M B) : M B :=
  fun s => match m s with
           | Ok (x, s') => k x s'
           | Throw e => Throw e
           end.

Definition getM (target : value) (k : string) : M value :=
  fun s => Ok (Js.get (heap s) target k, s).

Definition setM (target : value) (k : string) (v : value) : M unit :=
  fun s => match Js.set (heap s) target k v with
           | Ok h => Ok (tt, {| heap := h; flash_state := flash_state s |})
           | Throw e => Throw e
           end.

Definition allocM (o : object) : M value :=
  fun s => let '(a, h) := Js.alloc o (heap s) in
           Ok (VRef a, {| heap := h; flash_state := flash_state s |}).

(** [req.flash(key)], reached only when [req.flash] is not [undefined]. *)
Definition flashM (req : request) (key : string) : M value :=
  fun s => match req_flash req with
           | FlashFunction read =>
               let '(v, f) := read key (flash_state s) in
               Ok (v, {| heap := heap s; flash_state := f |})
           | _ => Throw TypeError
           end.

Definition whenM (b : bool) (m : M unit) : M unit :=
  if b then m else retM tt.

(** A call [res.render(view, data)]. *)
Record render_call := RenderCall {
  rc_res : value;
  rc_view : string;
  rc_data : value
}.

End Dispatch.

Arguments flash_capability : clear implicits.
Arguments request : clear implicits.
Arguments dispatch_context : clear implicits.
Arguments invocation : clear implicits.
Arguments store : clear implicits.
Arguments M : clear implicits.

Declare Scope js_scope.
Delimit Scope js_scope with js.
Notation "'let!' x ':=' m 'in' k" := (bindM m (fun x => k))
  (at level 10, x name, m at level 100, k at level 200) : js_scope.
Notation "'do!' m 'in' k" := (bindM m (fun _ => k))
  (at level 10, m at level 100, k at level 200) : js_scope.

Section Render.
Context {F : Type}.
Local Open Scope js_scope.

(** [this.render(...args)], called as a method of the context [ctx]. The
    closure reads [actionName], [viewBaseName] and [res] from the
    constructor call that made [ctx] and [routeData] from the call of
    [addRoute] that built the type of [ctx]. *)
Definition render (ctx : dispatch_context F) (args : list value)
  : M F render_call :=
  let actionName := ctx_actionName ctx in
  let routeData := w_routeData (ctx_class ctx) in
  let! empty := allocM Js.empty_object in
  let '(viewName, data) :=
    match Js.argument args 0 with
    | VString s =>
        (if JsString.nonempty s then s else actionName,
         Js.or (Js.argument args 1) empty)
    | first => (actionName, Js.or first empty)
    end in
  let! cn := getM data "controllerName" in
  do! whenM (negb (Js.truthy cn))
        (setM data "controllerName" (rd_controllerName routeData)) in
  let! an := getM data "actionName" in
  do! whenM (negb (Js.truthy an))
        (setM data "actionName" (VString actionName)) in
  let! se := getM data "session" in
  do! whenM (negb (Js.truthy se))
        (setM data "session" (req_session (ctx_req ctx))) in
  do! match req_flash (ctx_req ctx) with
      | FlashUndefined => retM tt
      | _ =>
          let! success := flashM (ctx_req ctx) "success" in
          do! setM data "success" success in
          let! error := flashM (ctx_req ctx) "error" in
          do! setM data "error" error in
          let! info := flashM (ctx_req ctx) "info" in
          setM data "info" info
      end in
  retM {| rc_res := ctx_res ctx;
         rc_view := ctx_viewBaseName ctx ++ "/" ++ viewName;
         rc_data := data |}.

End Render.

(** ** Vocabulary of the statements *)

Module Spec.
Import JsString Pattern.

(** A string with its first character lower-cased. *)
Definition lowerFirst (s : string) : string :=
  match s with
  | EmptyString => EmptyString
  | String c r => String (lower_char c) r
  end.

(** [s] starts with [tok] when letter case is ignored. *)
Definition starts_with_ignoring_case (tok s : string) : bool :=
  bool_decide (is_Some (strip_prefix (toLowerCase tok) (toLowerCase s))).

(** The capture segment of a parameter name. *)
Definition capture (name : string) : string := ":" ++ name.

(** The segments of a path name: the bare name unless empty, then one
    capture per parameter name. *)
Definition segments (bare : string) (names : list string) : list string :=
  (if nonempty bare then [bare] else []) ++ map capture names.

(** The wrapper the cache holds for an instance: the first entry of
    [classesLoaded] with that instance. *)
Definition cached (st : mvc_router) (i : addr) : option wrapper :=
  controller <$> head (filter (fun item => instance item = i)
                              (default [] (classesLoaded st))).

(** The number of wrappers built for an instance. *)
Definition wrappers_for (st : mvc_router) (i : addr) : nat :=
  length (filter (fun item => instance item = i)
                 (default [] (classesLoaded st))).

(** The wrapper a call of [addRoute] gives its handler. *)
Definition chosen (st : mvc_router) (rd : route_data) : wrapper :=
  default {| w_id := length (default [] (classesLoaded st));
             w_routeData := rd |}
          (cached st (rd_instance rd)).

(** Registering a list of routes, in order. *)
Definition addRoutes (rds : list route_data) (st : mvc_router) : mvc_router :=
  fold_left (fun st rd => Synth.addRoute rd st) rds st.

(** The names of the members of the dispatch context that stand before
    those of the controller instance. *)
Definition context_members : list string :=
  ["req"; "res"; "next"; "render"; "constructor"].

(** The action names of a list of routes. *)
Definition action_names (rs : list route) : list string :=
  map (fun r => rd_actionName (h_routeData (action r))) rs.

(** The argument of [render] that carries the data: the second one
    when the first is a string, the first one otherwise. *)
Definition data_argument (args : list value) : value :=
  match Js.argument args 0 with
  | VString _ => Js.argument args 1
  | first => first
  end.

(** The view name [render] uses. *)
Definition view_argument (actionName : string) (args : list value) : string :=
  match Js.argument args 0 with
  | VString s => if nonempty s then s else actionName
  | _ => actionName
  end.

(** The data object of a [render] call is the object at [a]: either the
    data argument is falsy and [a] is the address of the new empty
    object, or the data argument is a reference to the object at [a]. *)
Definition resolves_data (h : gmap addr object) (args : list value) (a : addr)
  : Prop :=
  (Js.truthy (data_argument args) = false /\ a = fresh (dom h))
  \/ (data_argument args = VRef a /\ a ∈ dom h).

(** [if (!o[k]) o[k] = v]. *)
Definition fill (k : string) (v : value) (o : object) : object :=
  if Js.truthy (default VUndefined (members o !! k)) then o
  else Js.set_member k v o.

(** Every instance the cache names is an object of the store. *)
Definition cache_allocated (h : gmap addr object) (st : mvc_router) : Prop :=
  forall item, item ∈ default [] (classesLoaded st) -> instance item ∈ dom h.

Section Rendered.
Context {F : Type}.

(** The data object after the three defaults are filled in. *)
Definition filled (ctx : dispatch_context F) (o : object) : object :=
  fill "session" (req_session (ctx_req ctx))
    (fill "actionName" (VString (ctx_actionName ctx))
       (fill "controllerName"
          (rd_controllerName (w_routeData (ctx_class ctx))) o)).

(** The three reads of the flash reader, in the order of the calls. *)
Definition flash_reads (read : string -> F -> value * F) (f : F)
  : value * value * value * F :=
  let '(v1, f1) := read "success" f in
  let '(v2, f2) := read "error" f1 in
  let '(v3, f3) := read "info" f2 in
  (v1, v2, v3, f3).

(** The data object and the flash state after the flash step; [None]
    when the step throws. *)
Definition flashed (req : request F) (f : F) (o : object)
  : option (object * F) :=
  match req_flash req with
  | FlashUndefined => Some (o, f)
  | FlashFunction read =>
      let '(v1, v2, v3, f3) := flash_reads read f in
      Some (Js.set_member "info" v3
              (Js.set_member "error" v2 (Js.set_member "success" v1 o)), f3)
  | FlashNotCallable => None
  end.
End Rendered.

End Spec.

(** ** The controllers of the README and a few requests *)

Module Readme.

Definition fn (src : string) : object :=
  {| members := ∅; keys := []; source := Some src |}.

(** [homeController.js], a flat controller. *)
Definition home : object :=
  {| members :=
       {[ "get" := VRef 2; "getSomething" := VRef 3;
          "getSomethingElse" := VRef 4; "getWithParameters" := VRef 5;
          "post" := VRef 2; "postSomething" := VRef 2;
          "_someHiddenMethod" := VRef 2 ]};
     keys := ["get"; "getSomething"; "getSomethingElse"; "getWithParameters";
              "post"; "postSomething"; "_someHiddenMethod"];
     source := None |}.

(** The store: the controller at 1, its functions, a data object
    [{ actionName: 0 }] at 6, an empty data object at 7, a session at 8,
    the methods of the class below at 11 and 12, and a function without
    a parameter list that the signature pattern reads, at 13. *)
Definition store0 : gmap addr object :=
  {[ 1 := home;
     2 := fn "function() { this.res.send('hello from home'); }";
     3 := fn "function() { this.render({ }); }";
     4 := fn "function() { this.render('customView', { }); }";
     5 := fn "function(foo, bar) { this.res.json({ foo: foo, bar: bar }); }";
     6 := {| members := {[ "actionName" := VNumber 0 ]};
             keys := ["actionName"]; source := None |};
     7 := Js.empty_object;
     8 := Js.empty_object;
     11 := fn "index(){ this.render({ }); }";
     12 := fn "getUser(userId){ this.res.json({ userId: this.req.params.userId }); }";
     13 := fn "async function report(id) { this.res.send(id); }" ]}.

Definition home_cd : controller_data :=
  {| controllerDef := ObjectDef 1; controllerName := "home";
     viewBaseName := "home" |}.

(** The class of the README. *)
Definition user_class : class_def :=
  {| prototype_names := ["constructor"; "index"; "getUser"];
     construct :=
       {| members := {[ "index" := VRef 11; "getUser" := VRef 12 ]};
          keys := []; source := None |} |}.

Definition user_cd : controller_data :=
  {| controllerDef := ClassDef user_class; controllerName := "user";
     viewBaseName := "user" |}.

(** The same class in [defaultController.js]. *)
Definition default_cd : controller_data :=
  {| controllerDef := ClassDef user_class; controllerName := "default";
     viewBaseName := "default" |}.

(** A flat controller with a function member named [constructor]. *)
Definition store1 : gmap addr object :=
  {[ 1 := {| members := {[ "constructor" := VRef 2; "index" := VRef 2 ]};
             keys := ["constructor"; "index"]; source := None |};
     2 := fn "function() { this.res.send('ok'); }" ]}.

(** A flat controller whose only action is an [async] function. *)
Definition store2 : gmap addr object :=
  {[ 1 := {| members := {[ "report" := VRef 13 ]};
             keys := ["report"]; source := None |};
     13 := fn "async function report(id) { this.res.send(id); }" ]}.

(** A flat controller with an action named [next]. *)
Definition store3 : gmap addr object :=
  {[ 1 := {| members := {[ "next" := VRef 2 ]};
             keys := ["next"]; source := None |};
     2 := fn "function(id) { this.res.send(id); }" ]}.

(** What [loadImplicitRoutes] leaves, starting from a new router. *)
Definition loaded (cd : controller_data) (h : gmap addr object)
  : gmap addr object * mvc_router :=
  match Synth.loadImplicitRoutes cd h initial_router with
  | Ok p => p
  | Throw _ => (h, initial_router)
  end.

(** The [n]-th route of a router. *)
Definition nth_route (st : mvc_router) (n : nat) : route :=
  default {| verb := ""; path := "";
             action := {| h_routeData := RouteData "" "" "" "" None 0 VUndefined;
                          h_controllerClass :=
                            Wrapper 0 (RouteData "" "" "" "" None 0 VUndefined) |} |}
          (router st !! n).

(** A request without flash messages and one with a reader that returns
    the number of reads made before. *)
Definition plain_request : request unit :=
  {| req_params := {[ "userId" := VString "42" ]};
     req_session := VRef 8; req_flash := FlashUndefined |}.

Definition flash_request : request nat :=
  {| req_params := ∅; req_session := VRef 8;
     req_flash := FlashFunction (fun _ n => (VNumber (Z.of_nat n), S n)) |}.

End Readme.

(** ** Vocabulary of the further statements *)

Module Shape.
Import JsString Pattern.

(** [s] holds no character [d]. *)
Definition no_char (d : ascii) (s : string) : bool :=
  all (fun c => negb (Ascii.eqb c d)) s.

(** A non-empty string of word characters. *)
Definition identifier (s : string) : bool :=
  nonempty s && all is_word s.

(** A string of [k] slashes. *)
Fixpoint slashes (k : nat) : string :=
  match k with
  | O => EmptyString
  | S k' => String "/" (slashes k')
  end.

(** [w] and [s] are equal when letter case is ignored. *)
Definition equal_ci (w s : string) : bool :=
  match strip_prefix_ci w s with
  | Some EmptyString => true
  | _ => false
  end.

(** [s] ends with a string equal to [w] when letter case is ignored. *)
Definition ends_with_ci (w s : string) : Prop :=
  exists pre tail, s = pre +:+ tail /\ equal_ci w tail = true.

(** A file stem without a trailing word [controller] or [ctrl], in any
    letter case. *)
Fixpoint strip_word (s : string) : string :=
  if equal_ci "controller" s || equal_ci "ctrl" s then EmptyString
  else match s with
       | EmptyString => EmptyString
       | String c s' => String c (strip_word s')
       end.

(** White space that holds no line terminator. *)
Definition blank (s : string) : bool :=
  all (fun c => is_space c && negb (is_line_terminator c)) s.

(** The five verbs of the router. *)
Definition verbs : list string := ["get"; "post"; "put"; "patch"; "delete"].

(** The text of a parameter list on one line: a first identifier, then,
    for every further parameter, blanks, a comma, blanks and an
    identifier. A further parameter is given by the blanks before its
    comma, the blanks after it, and its name. *)
Fixpoint parameter_list (first : string)
    (more : list (string * string * string)) : string :=
  match more with
  | [] => first
  | (sp1, sp2, next) :: more' =>
      first +:+ sp1 +:+ "," +:+ sp2 +:+ parameter_list next more'
  end.

(** The names such a list declares, in order. *)
Definition declared (first : string) (more : list (string * string * string))
  : list string :=
  first :: map (fun p => snd p) more.

Definition plain_parameters (first : string)
    (more : list (string * string * string)) : Prop :=
  identifier first = true
  /\ Forall (fun p => blank (fst (fst p)) = true
                      /\ blank (snd (fst p)) = true
                      /\ identifier (snd p) = true) more.

(** A value that is an object. *)
Definition is_object (v : value) : bool :=
  match v with
  | VRef _ => true
  | _ => false
  end.

(** The cache names an instance once at most, and the wrapper of every
    entry was built by a call of [addRoute] for the instance of the entry:
    its prototype delegates to that instance. *)
Definition cache_consistent (st : mvc_router) : Prop :=
  NoDup (map instance (default [] (classesLoaded st)))
  /\ Forall (fun item =>
               rd_instance (w_routeData (controller item)) = instance item)
            (default [] (classesLoaded st)).

(** Every handler registered holds the wrapper the cache has for the
    instance of its route. *)
Definition handlers_cached (st : mvc_router) : Prop :=
  Forall (fun r =>
            Spec.cached st (rd_instance (h_routeData (action r)))
            = Some (h_controllerClass (action r)))
         (router st).

(** The members of the data object that [render] may write. *)
Definition render_members : list string :=
  ["controllerName"; "actionName"; "session"; "success"; "error"; "info"].

End Shape.

(** ** Controllers whose functions the signature pattern does not read *)

Module Cases.
Import Readme.

(** A flat controller whose action [search] gives its second parameter a
    default value. *)
Definition store4 : gmap addr object :=
  {[ 1 := {| members := {[ "search" := VRef 2 ]};
             keys := ["search"]; source := None |};
     2 := fn "function(name, limit = 10) { this.res.json([name, limit]); }" ]}.

(** A request that carries values for three path parameters. *)
Definition search_request : request unit :=
  {| req_params := {[ "id" := VString "7"; "name" := VString "node";
                      "limit" := VString "5" ]};
     req_session := VUndefined; req_flash := FlashUndefined |}.

End Cases.

(** ** Strings and patterns *)

Section StringFacts.
Import JsString Pattern.

Lemma strip_prefix_app (p r : string) : strip_prefix p (p +:+ r) = Some r.
Proof.
  induction p as [|a p IH]; simpl; [reflexivity|].
  rewrite Ascii.eqb_refl. exact IH.
Qed.

Lemma strip_prefix_Some (p s r : string) :
  strip_prefix p s = Some r -> s = p +:+ r.
Proof.
  revert s. induction p as [|a p IH]; intros s H; simpl in *.
  - by injection H as ->.
  - destruct s as [|b s]; [discriminate|].
    destruct (Ascii.eqb a b) eqn:E; [|discriminate].
    apply Ascii.eqb_eq in E. subst b. by rewrite (IH s H).
Qed.

Lemma first_token_None (toks : list string) (s : string) :
  (forall tok rest, tok ∈ toks -> s <> tok +:+ rest) ->
  first_token toks s = None.
Proof.
  induction toks as [|t toks IH]; intros H; simpl; [reflexivity|].
  destruct (strip_prefix t s) as [rest|] eqn:E.
  - apply strip_prefix_Some in E. exfalso. eapply H; [left|exact E].
  - apply IH. intros tok rest Hin. apply H. by right.
Qed.

Lemma lowerFirst_eq (rest : string) :
  (if nonempty rest then toLowerCase (charAt0 rest) +:+ substr1 rest else rest)
  = Spec.lowerFirst rest.
Proof. destruct rest; reflexivity. Qed.

End StringFacts.

(** ** The action naming resolver *)

Section Resolver.
Import JsString Pattern Synth.

Lemma implicitMethodPattern_token (tok rest : string) :
  tok ∈ implicit_tokens ->
  implicitMethodPattern (tok +:+ rest) = Some (tok, rest)
  /\ toLowerCase tok = tok /\ nonempty tok = true
  /\ String.eqb (tok +:+ rest) "index" = false.
Proof.
  intros Hin. unfold implicit_tokens in Hin.
  repeat (apply elem_of_cons in Hin as [->|Hin]);
    [ .. | by apply elem_of_nil in Hin ]; repeat split.
Qed.

Lemma resolveAction_token (raw tok rest : string) :
  tok ∈ implicit_tokens -> trim raw = tok +:+ rest ->
  resolveAction raw = (tok, Spec.lowerFirst rest).
Proof.
  intros Hin Heq.
  destruct (implicitMethodPattern_token tok rest Hin) as (Hm & Hl & Hn & Hi).
  unfold resolveAction, getMethod, barePathName.
  rewrite Heq, Hi, Hm, Hn, Hl. by rewrite lowerFirst_eq.
Qed.

Lemma resolveAction_other (raw : string) :
  (forall tok rest, tok ∈ implicit_tokens -> trim raw <> tok +:+ rest) ->
  resolveAction raw
  = ("get", if String.eqb (trim raw) "index" then "" else trim raw).
Proof.
  intros H. apply first_token_None in H.
  unfold resolveAction, getMethod, barePathName, implicitMethodPattern.
  rewrite H. destruct (String.eqb (trim raw) "index"); [reflexivity|].
  by rewrite H.
Qed.

(** C3, as amended. The pattern is matched with the letter case as written:
    a trimmed name that starts with one of the lower-case tokens [get],
    [post], [put], [patch], [delete] resolves to that token as verb and to
    the rest with its first character lower-cased as bare name; any other
    name resolves to verb [get] and to the name unchanged, except
    ["index"], whose bare name is empty. *)
Theorem resolveAction_spec (raw : string) :
  (forall tok rest,
      tok ∈ implicit_tokens -> trim raw = tok +:+ rest ->
      resolveAction raw = (tok, Spec.lowerFirst rest))
  /\ ((forall tok rest, tok ∈ implicit_tokens -> trim raw <> tok +:+ rest) ->
      resolveAction raw
      = ("get", if String.eqb (trim raw) "index" then "" else trim raw)).
Proof.
  split.
  - intros tok rest. apply resolveAction_token.
  - apply resolveAction_other.
Qed.

End Resolver.

(** ** The registrar and its cache *)

Section Registrar.
Import JsString Synth Spec.

Lemma addRoute_router (rd : route_data) (st : mvc_router) :
  router (addRoute rd st)
  = router st ++ [ {| verb := rd_method rd;
                      path := "/" +:+ stripLeadingSlashes (rd_path rd);
                      action := {| h_routeData := rd;
                                   h_controllerClass := chosen st rd |} |} ].
Proof.
  unfold addRoute, chosen, Spec.cached.
  by destruct (filter _ (default [] (classesLoaded st))).
Qed.

Lemma addRoute_classesLoaded (rd : route_data) (st : mvc_router) :
  default [] (classesLoaded (addRoute rd st))
  = default [] (classesLoaded st)
    ++ match Spec.cached st (rd_instance rd) with
       | Some _ => []
       | None => [ {| instance := rd_instance rd; controller := chosen st rd |} ]
       end.
Proof.
  unfold addRoute, chosen, Spec.cached.
  destruct (filter _ (default [] (classesLoaded st))); simpl.
  - reflexivity.
  - by rewrite app_nil_r.
Qed.

Lemma cached_addRoute_same (rd : route_data) (st : mvc_router) :
  Spec.cached (addRoute rd st) (rd_instance rd) = Some (chosen st rd).
Proof.
  unfold Spec.cached at 1. rewrite addRoute_classesLoaded, filter_app.
  unfold chosen, Spec.cached.
  destruct (filter _ (default [] (classesLoaded st))) as [|item l] eqn:E; simpl.
  - rewrite filter_cons_True by reflexivity. reflexivity.
  - reflexivity.
Qed.

Lemma cached_addRoute_keep (rd : route_data) (st : mvc_router) i w :
  Spec.cached st i = Some w -> Spec.cached (addRoute rd st) i = Some w.
Proof.
  unfold Spec.cached at 1 2. rewrite addRoute_classesLoaded, filter_app.
  destruct (filter _ (default [] (classesLoaded st))) as [|item l]; simpl;
    [discriminate|done].
Qed.

Lemma wrappers_for_addRoute (rd : route_data) (st : mvc_router) i :
  Spec.wrappers_for (addRoute rd st) i
  = Spec.wrappers_for st i
    + match Spec.cached st (rd_instance rd) with
      | Some _ => 0
      | None => if decide (rd_instance rd = i) then 1 else 0
      end.
Proof.
  unfold Spec.wrappers_for. rewrite addRoute_classesLoaded, filter_app, length_app.
  f_equal. destruct (Spec.cached st (rd_instance rd)); [reflexivity|].
  destruct (decide (rd_instance rd = i)) as [Heq|Hne].
  - by rewrite filter_cons_True.
  - by rewrite filter_cons_False.
Qed.

Lemma cached_None_wrappers (st : mvc_router) i :
  Spec.cached st i = None -> Spec.wrappers_for st i = 0.
Proof.
  unfold Spec.cached, Spec.wrappers_for.
  by destruct (filter _ (default [] (classesLoaded st))).
Qed.

Lemma addRoutes_keep (rds : list route_data) (st : mvc_router) i w :
  Spec.cached st i = Some w ->
  Spec.cached (addRoutes rds st) i = Some w
  /\ Spec.wrappers_for (addRoutes rds st) i = Spec.wrappers_for st i
  /\ default [] (classesLoaded st)
       `prefix_of` default [] (classesLoaded (addRoutes rds st))
  /\ exists new,
       router (addRoutes rds st) = router st ++ new
       /\ map (fun r => h_routeData (action r)) new = rds
       /\ forall r, r ∈ new ->
            rd_instance (h_routeData (action r)) = i ->
            h_controllerClass (action r) = w.
Proof.
  revert st. induction rds as [|rd rds IH]; intros st Hc.
  - split; [exact Hc|]. split; [reflexivity|]. split; [reflexivity|].
    exists []. rewrite app_nil_r. split; [reflexivity|]. split; [reflexivity|].
    intros r Hr. by apply elem_of_nil in Hr.
  - destruct (IH (addRoute rd st) (cached_addRoute_keep rd st i w Hc))
      as (Hc' & Hn & Hp & new & Hr & Hm & Hw).
    split; [exact Hc'|]. split; [|split].
    + change (addRoutes (rd :: rds) st) with (addRoutes rds (addRoute rd st)).
      rewrite Hn, wrappers_for_addRoute.
      destruct (Spec.cached st (rd_instance rd)) eqn:E; [lia|].
      destruct (decide (rd_instance rd = i)) as [<-|]; [congruence|lia].
    + etrans; [|exact Hp]. rewrite addRoute_classesLoaded. by apply prefix_app_r.
    + eexists (_ :: new). split; [|split].
      * change (addRoutes (rd :: rds) st) with (addRoutes rds (addRoute rd st)).
        rewrite Hr, addRoute_router, <- app_assoc. reflexivity.
      * simpl. by rewrite Hm.
      * intros r [->|Hin]%elem_of_cons; [|by apply Hw].
        simpl. intros <-. unfold chosen. by rewrite Hc.
Qed.

(** C8. Once a route is registered for a controller instance, the cache
    holds a wrapper for that instance; every later registration for the
    same instance (equal address) gives its handler that same wrapper and
    builds no other; the cache only grows, so the entry is never evicted;
    and when the cache held no wrapper for the instance before, exactly
    one is ever built for it. *)
Theorem wrapper_built_once (st : mvc_router) (rd : route_data)
    (rds : list route_data) :
  let i := rd_instance rd in
  let st1 := addRoute rd st in
  let st2 := addRoutes rds st1 in
  exists w new,
    router st1 = router st ++ [ {| verb := rd_method rd;
                                   path := "/" +:+ stripLeadingSlashes (rd_path rd);
                                   action := {| h_routeData := rd;
                                                h_controllerClass := w |} |} ]
    /\ Spec.cached st1 i = Some w
    /\ Spec.cached st2 i = Some w
    /\ router st2 = router st1 ++ new
    /\ map (fun r => h_routeData (action r)) new = rds
    /\ (forall r, r ∈ new ->
          rd_instance (h_routeData (action r)) = i ->
          h_controllerClass (action r) = w)
    /\ Spec.wrappers_for st2 i = Spec.wrappers_for st1 i
    /\ (Spec.cached st i = None -> Spec.wrappers_for st2 i = 1)
    /\ default [] (classesLoaded st)
         `prefix_of` default [] (classesLoaded st1)
    /\ default [] (classesLoaded st1)
         `prefix_of` default [] (classesLoaded st2).
Proof.
  intros i st1 st2. subst i st1 st2.
  destruct (addRoutes_keep rds (addRoute rd st) (rd_instance rd) (chosen st rd)
              (cached_addRoute_same rd st))
    as (Hc & Hn & Hp & new & Hr & Hm & Hw).
  exists (chosen st rd), new.
  split; [apply addRoute_router|].
  split; [apply cached_addRoute_same|].
  repeat (split; [assumption|]).
  split; [|split; [|assumption]].
  - intros Hnone.
    rewrite Hn, wrappers_for_addRoute, Hnone, (cached_None_wrappers _ _ Hnone).
    by rewrite decide_True.
  - rewrite addRoute_classesLoaded. by apply prefix_app_r.
Qed.

End Registrar.

(** ** Route synthesis *)

Section Synthesis.
Import JsString Pattern Synth Spec.

Lemma append_cons (x : ascii) (a b : string) :
  String x a +:+ b = String x (a +:+ b).
Proof. reflexivity. Qed.

Lemma append_empty_r (a : string) : a +:+ "" = a.
Proof. induction a as [|x a IH]; [reflexivity|]. by rewrite append_cons, IH. Qed.

Lemma append_assoc (a b c : string) : (a +:+ b) +:+ c = a +:+ (b +:+ c).
Proof.
  induction a as [|x a IH]; [reflexivity|]. by rewrite !append_cons, IH.
Qed.

Lemma nonempty_append_r (a b : string) :
  nonempty b = true -> nonempty (a +:+ b) = true.
Proof. destruct a; [auto|reflexivity]. Qed.

Lemma fold_appendParameter (names : list string) (p : string) :
  nonempty p = true ->
  fold_left appendParameter names p = String.concat "/" (p :: map capture names).
Proof.
  revert p. induction names as [|a names IH]; intros p Hp; [reflexivity|].
  cbn [fold_left map]. rewrite IH.
  - unfold appendParameter. rewrite Hp.
    change (String.concat "/" (p :: capture a :: map capture names))
      with (p +:+ "/" +:+ String.concat "/" (capture a :: map capture names)).
    destruct names as [|b names]; [reflexivity|].
    cbn [map String.concat]. unfold capture.
    by rewrite !append_assoc.
  - unfold appendParameter. rewrite Hp. by apply nonempty_append_r.
Qed.

Lemma appendParameters_segments (bare : string) (args : option (list string)) :
  appendParameters bare args
  = String.concat "/" (segments bare (default [] args)).
Proof.
  unfold segments. destruct args as [names|]; simpl.
  - destruct (nonempty bare) eqn:Hb.
    + by apply fold_appendParameter.
    + destruct bare; [|discriminate]. destruct names as [|a names]; [reflexivity|].
      cbn [fold_left]. unfold appendParameter at 2. simpl nonempty. cbv iota.
      by apply (fold_appendParameter names (":" +:+ a)).
  - destruct (nonempty bare) eqn:Hb; [reflexivity|]. by destruct bare.
Qed.

Lemma actionRouteData_fields cd h inst actionName seventh :
  let rd := actionRouteData cd h inst actionName seventh in
  rd_method rd = fst (resolveAction actionName)
  /\ rd_args rd = getParameterNames h (Js.get h (VRef inst) actionName)
  /\ rd_path rd
     = routePath cd (String.concat "/"
         (segments (snd (resolveAction actionName)) (default [] (rd_args rd))))
  /\ rd_viewBaseName rd = viewBaseName cd
  /\ rd_actionName rd = actionName
  /\ rd_instance rd = inst
  /\ rd_controllerName rd = seventh.
Proof.
  unfold actionRouteData, resolveAction; cbn.
  by rewrite appendParameters_segments.
Qed.

(** The members a handler finds on its context. *)
Lemma lookup_member_instance {F} h (ctx : dispatch_context F) name :
  name ∉ context_members ->
  lookup_member h ctx name
  = InstanceMember (Js.get h (VRef (rd_instance (w_routeData (ctx_class ctx)))) name).
Proof.
  intros Hn. unfold lookup_member.
  repeat match goal with
         | |- context [String.eqb name ?k] =>
             destruct (String.eqb_spec name k) as [->|_];
             [exfalso; apply Hn; unfold context_members; set_solver|]
         end.
  reflexivity.
Qed.

Lemma actionFn_instance {F} (hd : handler) h (req : request F) res next :
  rd_actionName (h_routeData hd) ∉ context_members ->
  rd_instance (w_routeData (h_controllerClass hd))
    = rd_instance (h_routeData hd) ->
  Js.is_function h
    (Js.get h (VRef (rd_instance (h_routeData hd)))
              (rd_actionName (h_routeData hd))) = true ->
  actionFn hd h req res next
  = Ok {| callee := InstanceMember
                      (Js.get h (VRef (rd_instance (h_routeData hd)))
                                (rd_actionName (h_routeData hd)));
          this := newController hd req res next;
          arguments := actionArgs hd req |}.
Proof.
  intros Hn Hi Hf. unfold actionFn.
  rewrite lookup_member_instance by exact Hn. cbn [newController ctx_class].
  rewrite Hi. cbn [callable]. by rewrite Hf.
Qed.

End Synthesis.

Section Loops.
Import JsString Pattern Synth Spec.

Lemma addRoutes_router (rds : list route_data) (st : mvc_router) :
  exists new,
    router (addRoutes rds st) = router st ++ new
    /\ map (fun r => h_routeData (action r)) new = rds
    /\ Forall (fun r =>
                 verb r = rd_method (h_routeData (action r))
                 /\ path r = "/" +:+ stripLeadingSlashes
                                       (rd_path (h_routeData (action r)))) new.
Proof.
  revert st. induction rds as [|rd rds IH]; intros st.
  - exists []. by rewrite app_nil_r.
  - destruct (IH (addRoute rd st)) as (new & Hr & Hm & Hf).
    eexists (_ :: new).
    change (addRoutes (rd :: rds) st) with (addRoutes rds (addRoute rd st)).
    rewrite Hr, addRoute_router, <- app_assoc. split; [reflexivity|].
    split; [simpl; by rewrite Hm|]. by constructor.
Qed.

(** Both action loops register the eligible names, in order. *)
Lemma action_loop (elig : string -> bool) (mk : string -> route_data)
    (names : list string) (st : mvc_router) :
  fold_left (fun st n => if elig n then addRoute (mk n) st else st) names st
  = addRoutes (map mk (List.filter elig names)) st.
Proof.
  revert st. induction names as [|n names IH]; intros st; [reflexivity|].
  cbn [fold_left List.filter]. rewrite IH. by destruct (elig n).
Qed.

Lemma action_loop_routes cd h inst seventh (names : list string) st :
  exists new,
    router (fold_left
              (fun st n =>
                 if eligible h inst n
                 then addRoute (actionRouteData cd h inst n seventh) st
                 else st) names st)
    = router st ++ new
    /\ map (fun r => h_routeData (action r)) new
       = map (fun n => actionRouteData cd h inst n seventh)
             (List.filter (eligible h inst) names)
    /\ action_names new = List.filter (eligible h inst) names.
Proof.
  rewrite (action_loop (eligible h inst)
             (fun n => actionRouteData cd h inst n seventh)).
  destruct (addRoutes_router
              (map (fun n => actionRouteData cd h inst n seventh)
                   (List.filter (eligible h inst) names)) st)
    as (new & Hr & Hm & _).
  exists new. split; [exact Hr|]. split; [exact Hm|].
  unfold action_names.
  rewrite <- (map_map (fun r => h_routeData (action r)) rd_actionName), Hm.
  rewrite map_map. simpl. apply map_id.
Qed.

Lemma eligible_not_hidden h inst name :
  eligible h inst name = true -> charAt0 name <> "_".
Proof.
  unfold eligible. intros [_ H]%andb_prop.
  apply negb_true_iff in H. by apply String.eqb_neq.
Qed.

(** X11. In the flat-actions variant the routes registered are, in enumeration
    order, those of the enumerable names of the definition object whose
    member is a function and which do not start with an underscore; the
    instance of every such route is the definition object itself. *)
Lemma flat_actions (cd : controller_data) (a : addr)
    (h : gmap addr object) (st : mvc_router) :
  controllerDef cd = ObjectDef a ->
  exists st' new,
    loadImplicitRoutes cd h st = Ok (h, st')
    /\ router st' = router st ++ new
    /\ action_names new
       = List.filter
           (fun k => Js.is_function h (Js.get h (VRef a) k)
                     && negb (String.eqb (charAt0 k) "_"))
           (Js.for_in h a)
    /\ Forall (fun r => rd_instance (h_routeData (action r)) = a) new.
Proof.
  intros Hdef. unfold loadImplicitRoutes. rewrite Hdef.
  destruct (action_loop_routes cd h a VUndefined (Js.for_in h a) st)
    as (new & Hr & Hm & Hn).
  eexists _, new. split; [reflexivity|]. split; [exact Hr|]. split; [exact Hn|].
  apply Forall_forall. intros r Hin.
  apply list_elem_of_In in Hin.
  apply (in_map (fun r => h_routeData (action r))) in Hin.
  rewrite Hm in Hin. apply in_map_iff in Hin as (n & Heq & _).
  by rewrite <- Heq.
Qed.

(** C6. In either variant, no route that [loadImplicitRoutes] registers is
    for an action whose raw name starts with an underscore. *)
Theorem hidden_actions_unrouted (cd : controller_data)
    (h h' : gmap addr object) (st st' : mvc_router) :
  loadImplicitRoutes cd h st = Ok (h', st') ->
  exists new,
    router st' = router st ++ new
    /\ forall name, name ∈ action_names new -> charAt0 name <> "_".
Proof.
  unfold loadImplicitRoutes. intros Hload.
  destruct (controllerDef cd) as [a|c|]; [| |discriminate].
  - injection Hload as <- <-.
    destruct (action_loop_routes cd h a VUndefined (Js.for_in h a) st)
      as (new & Hr & _ & Hn).
    exists new. split; [exact Hr|]. intros name. rewrite Hn.
    intros [_ He]%list_elem_of_In%filter_In. by eapply eligible_not_hidden.
  - destruct (Js.alloc (construct c) h) as [inst h1] eqn:Ha.
    injection Hload as <- <-.
    destruct (action_loop_routes cd h1 inst (VString (pathControllerName cd))
                (List.filter visible (prototype_names c)) st)
      as (new & Hr & _ & Hn).
    exists new. split; [exact Hr|]. intros name. rewrite Hn.
    intros [_ He]%list_elem_of_In%filter_In. by eapply eligible_not_hidden.
Qed.

End Loops.

Section Parameters.
Import JsString Pattern Synth Spec.
Context {F : Type}.

Lemma addRoute_action cd h inst actionName seventh st :
  let rd := actionRouteData cd h inst actionName seventh in
  router (addRoute rd st)
  = router st
    ++ [ {| verb := fst (resolveAction actionName);
            path := "/" +:+ stripLeadingSlashes
                      (routePath cd
                         (String.concat "/"
                            (segments (snd (resolveAction actionName))
                                      (default [] (rd_args rd)))));
            action := {| h_routeData := rd;
                         h_controllerClass := chosen st rd |} |} ].
Proof.
  intros rd. rewrite addRoute_router.
  destruct (actionRouteData_fields cd h inst actionName seventh)
    as (Hm & _ & Hp & _).
  fold rd in Hm, Hp. by rewrite Hm, Hp.
Qed.


End Parameters.

(** ** The render helper *)

Section RenderFacts.
Import JsString Synth Spec.
Context {F : Type}.
Local Open Scope js_scope.

Lemma get_lookup (h : gmap addr object) a o k :
  h !! a = Some o -> Js.get h (VRef a) k = default VUndefined (members o !! k).
Proof. intros H. unfold Js.get. by rewrite H. Qed.

Lemma get_set_member k v o k' :
  default VUndefined (members (Js.set_member k v o) !! k')
  = if decide (k = k') then v else default VUndefined (members o !! k').
Proof.
  unfold Js.set_member; cbn [members].
  destruct (decide (k = k')) as [->|Hne].
  - by rewrite lookup_insert_eq.
  - by rewrite lookup_insert_ne.
Qed.

Lemma get_fill k v o k' :
  default VUndefined (members (fill k v o) !! k')
  = if decide (k = k')
    then (if Js.truthy (default VUndefined (members o !! k))
          then default VUndefined (members o !! k) else v)
    else default VUndefined (members o !! k').
Proof.
  unfold fill.
  destruct (Js.truthy (default VUndefined (members o !! k))) eqn:E.
  - by destruct (decide (k = k')) as [->|].
  - apply get_set_member.
Qed.

Lemma render_arguments (actionName : string) (args : list value) (empty : value) :
  match Js.argument args 0 with
  | VString s =>
      (if nonempty s then s else actionName, Js.or (Js.argument args 1) empty)
  | first => (actionName, Js.or first empty)
  end
  = (view_argument actionName args, Js.or (data_argument args) empty).
Proof.
  unfold view_argument, data_argument.
  by destruct (Js.argument args 0).
Qed.

Lemma resolves_data_fresh (h : gmap addr object) args a :
  resolves_data h args a ->
  Js.or (data_argument args) (VRef (fresh (dom h))) = VRef a
  /\ exists o, <[fresh (dom h) := Js.empty_object]> h !! a = Some o
       /\ forall k, default VUndefined (members o !! k) = Js.get h (VRef a) k.
Proof.
  intros [[Hf ->]|[Hd Ha]].
  - split; [unfold Js.or; by rewrite Hf|].
    exists Js.empty_object. split; [apply lookup_insert_eq|].
    intros k. unfold Js.get.
    assert (h !! fresh (dom h) = None) as ->
      by apply not_elem_of_dom, is_fresh.
    reflexivity.
  - split; [by rewrite Hd|].
    apply elem_of_dom in Ha as [o Ho]. exists o. split.
    + rewrite lookup_insert_ne; [exact Ho|].
      intros Heq. apply (is_fresh (dom h)). rewrite Heq.
      apply elem_of_dom. eauto.
    + intros k. by rewrite (get_lookup h a o k Ho).
Qed.

Lemma fill_step (a : addr) (k : string) (v : value) (o : object)
    (s : store F) (cont : M F render_call) :
  heap s !! a = Some o ->
  (let! x := getM (VRef a) k in
   do! whenM (negb (Js.truthy x)) (setM (VRef a) k v) in cont) s
  = cont {| heap := <[a := fill k v o]> (heap s);
            flash_state := flash_state s |}.
Proof.
  intros Ho. unfold bindM, getM, whenM, setM, Js.set, retM, fill.
  rewrite (get_lookup _ _ _ _ Ho).
  destruct (Js.truthy (default VUndefined (members o !! k))); cbn.
  - rewrite insert_id by exact Ho. by destruct s.
  - by rewrite Ho.
Qed.

Lemma set_step (a : addr) (k : string) (v : value) (o : object)
    (s : store F) (cont : M F unit) :
  heap s !! a = Some o ->
  (do! setM (VRef a) k v in cont) s
  = cont {| heap := <[a := Js.set_member k v o]> (heap s);
            flash_state := flash_state s |}.
Proof. intros Ho. unfold bindM, setM, Js.set. by rewrite Ho. Qed.

(** What a [render] call evaluates to when its data is an object. *)
Lemma render_eval (ctx : dispatch_context F) (args : list value)
    (s : store F) (a : addr) :
  resolves_data (heap s) args a ->
  exists o,
    (forall k, default VUndefined (members o !! k) = Js.get (heap s) (VRef a) k)
    /\ render ctx args s
       = match flashed (ctx_req ctx) (flash_state s) (filled ctx o) with
         | Some (o', f') =>
             Ok ({| rc_res := ctx_res ctx;
                    rc_view := ctx_viewBaseName ctx +:+ "/"
                               +:+ view_argument (ctx_actionName ctx) args;
                    rc_data := VRef a |},
                 {| heap := <[a := o']>
                              (<[fresh (dom (heap s)) := Js.empty_object]> (heap s));
                    flash_state := f' |})
         | None => Throw TypeError
         end.
Proof.
  intros Hres. destruct (resolves_data_fresh _ _ _ Hres) as (Hor & o & Ho & Hold).
  exists o. split; [exact Hold|].
  unfold render. unfold bindM at 1. unfold allocM, Js.alloc. cbn [heap flash_state].
  rewrite render_arguments, Hor.
  rewrite (fill_step a "controllerName" _ o) by exact Ho. cbn [heap flash_state].
  rewrite (fill_step a "actionName" _ _) by apply lookup_insert_eq.
  cbn [heap flash_state]. rewrite insert_insert_eq.
  rewrite (fill_step a "session" _ _) by apply lookup_insert_eq.
  cbn [heap flash_state]. rewrite insert_insert_eq.
  fold (filled ctx o). unfold flashed.
  destruct (req_flash (ctx_req ctx)) as [|read|] eqn:Hflash.
  - reflexivity.
  - unfold flash_reads. unfold bindM at 1. unfold bindM at 1.
    unfold flashM at 1. rewrite Hflash. cbn [heap flash_state].
    destruct (read "success" (flash_state s)) as [v1 f1].
    rewrite (set_step a "success" v1 (filled ctx o)) by apply lookup_insert_eq.
    cbn [heap flash_state]. rewrite insert_insert_eq.
    unfold bindM at 1. unfold flashM at 1. rewrite Hflash. cbn [heap flash_state].
    destruct (read "error" f1) as [v2 f2].
    rewrite (set_step a "error" v2 _) by apply lookup_insert_eq.
    cbn [heap flash_state]. rewrite insert_insert_eq.
    unfold bindM at 1. unfold flashM at 1. rewrite Hflash. cbn [heap flash_state].
    destruct (read "info" f2) as [v3 f3].
    unfold setM, Js.set. cbn [heap flash_state].
    rewrite lookup_insert_eq, insert_insert_eq. reflexivity.
  - unfold bindM at 1. unfold bindM at 1. unfold flashM at 1.
    by rewrite Hflash.
Qed.

End RenderFacts.

Section RenderClaims.
Import JsString Synth Spec.
Context {F : Type}.

(** Membership of a given name in a list of given names. *)
Ltac in_names := apply list_elem_of_In; simpl; tauto.
Ltac not_in_names :=
  let H := fresh in
  intros H; repeat (apply elem_of_cons in H as [H|H]; [discriminate H|]);
  by apply elem_of_nil in H.

Lemma filled_get (ctx : dispatch_context F) (o : object) :
  let old k := default VUndefined (members o !! k) in
  let keep (v dflt : value) := if Js.truthy v then v else dflt in
  let new k := default VUndefined (members (filled ctx o) !! k) in
  new "controllerName"
  = keep (old "controllerName")
         (rd_controllerName (w_routeData (ctx_class ctx)))
  /\ new "actionName" = keep (old "actionName") (VString (ctx_actionName ctx))
  /\ new "session" = keep (old "session") (req_session (ctx_req ctx))
  /\ forall k, k ∉ ["controllerName"; "actionName"; "session"] -> new k = old k.
Proof.
  intros old keep new. unfold new, filled.
  repeat split; rewrite ?get_fill; repeat case_decide; try done.
  intros k Hk. rewrite !get_fill. repeat case_decide; try done;
    subst k; exfalso; apply Hk; in_names.
Qed.

Lemma flashed_get (req : request F) (f f' : F) (o o' : object) :
  flashed req f o = Some (o', f') ->
  forall k, k ∉ ["success"; "error"; "info"] ->
    default VUndefined (members o' !! k) = default VUndefined (members o !! k).
Proof.
  unfold flashed. intros H k Hk.
  destruct (req_flash req) as [|read|]; [by injection H as <- <-| |discriminate].
  destruct (flash_reads read f) as [[[v1 v2] v3] f3]. injection H as <- <-.
  rewrite !get_set_member. repeat case_decide; try done;
    subst k; exfalso; apply Hk; in_names.
Qed.

(** X17. The call [render] makes on the response: the view is the view base
    name, a slash and the first argument when that is a non-empty string,
    the raw action name otherwise; the data is the object the data argument
    resolves to. *)
Lemma render_view_and_data (ctx : dispatch_context F) (args : list value)
    (s : store F) (a : addr) :
  resolves_data (heap s) args a ->
  req_flash (ctx_req ctx) <> FlashNotCallable ->
  exists s',
    render ctx args s
    = Ok ({| rc_res := ctx_res ctx;
             rc_view := ctx_viewBaseName ctx +:+ "/"
                        +:+ view_argument (ctx_actionName ctx) args;
             rc_data := VRef a |}, s').
Proof.
  intros Hres Hflash. destruct (render_eval ctx args s a Hres) as (o & _ & Hr).
  unfold flashed in Hr. destruct (req_flash (ctx_req ctx)) as [|read|]; [| |done].
  - eexists. exact Hr.
  - destruct (flash_reads read (flash_state s)) as [[[v1 v2] v3] f3].
    eexists. exact Hr.
Qed.

(** C9. When [req.flash] is a reader, [render] reads the keys
    ["success"], ["error"] and ["info"] from it, in that order, and stores
    the three results in the members [success], [error] and [info] of the
    data object, whatever these held; when [req.flash] is [undefined] the
    three members keep what they held. (A [req.flash] that is defined but
    not callable makes the call throw.) *)
Theorem render_flash (ctx : dispatch_context F) (args : list value)
    (s : store F) (a : addr) :
  resolves_data (heap s) args a ->
  match req_flash (ctx_req ctx) with
  | FlashFunction read =>
      let '(v1, v2, v3, f3) := flash_reads read (flash_state s) in
      exists rc h',
        render ctx args s = Ok (rc, {| heap := h'; flash_state := f3 |})
        /\ rc_data rc = VRef a
        /\ Js.get h' (VRef a) "success" = v1
        /\ Js.get h' (VRef a) "error" = v2
        /\ Js.get h' (VRef a) "info" = v3
  | FlashUndefined =>
      exists rc h',
        render ctx args s
        = Ok (rc, {| heap := h'; flash_state := flash_state s |})
        /\ rc_data rc = VRef a
        /\ forall k, k ∈ ["success"; "error"; "info"] ->
             Js.get h' (VRef a) k = Js.get (heap s) (VRef a) k
  | FlashNotCallable => render ctx args s = Throw TypeError
  end.
Proof.
  intros Hres. destruct (render_eval ctx args s a Hres) as (o & Hold & Hr).
  unfold flashed in Hr.
  destruct (req_flash (ctx_req ctx)) as [|read|]; [| |exact Hr].
  - eexists _, _. split; [exact Hr|]. split; [reflexivity|].
    intros k Hk. rewrite (get_lookup _ a _ k (lookup_insert_eq _ _ _)).
    rewrite <- Hold.
    apply (proj2 (proj2 (proj2 (filled_get ctx o)))).
    intros Hin. repeat (apply elem_of_cons in Hk as [->|Hk]);
      [ .. | by apply elem_of_nil in Hk ]; revert Hin; not_in_names.
  - destruct (flash_reads read (flash_state s)) as [[[v1 v2] v3] f3].
    eexists _, _. split; [exact Hr|]. split; [reflexivity|].
    rewrite !(get_lookup _ a _ _ (lookup_insert_eq _ _ _)).
    rewrite !get_set_member. repeat case_decide; done.
Qed.

Lemma addRoutes_fresh_instance (rds : list route_data) (st : mvc_router)
    (i : addr) (v : value) :
  cached st i = None ->
  Forall (fun rd => rd_instance rd = i /\ rd_controllerName rd = v) rds ->
  exists new,
    router (addRoutes rds st) = router st ++ new
    /\ map (fun r => h_routeData (action r)) new = rds
    /\ forall r, r ∈ new ->
         rd_controllerName (w_routeData (h_controllerClass (action r))) = v.
Proof.
  intros Hc Hall. destruct rds as [|rd rds].
  - exists []. rewrite app_nil_r. repeat split.
    intros r Hr. by apply elem_of_nil in Hr.
  - apply Forall_cons in Hall as [[Hi Hv] Hall].
    change (addRoutes (rd :: rds) st) with (addRoutes rds (addRoute rd st)).
    assert (chosen st rd
            = {| w_id := length (default [] (classesLoaded st));
                 w_routeData := rd |}) as Hw.
    { unfold chosen. by rewrite Hi, Hc. }
    destruct (addRoutes_keep rds (addRoute rd st) i (chosen st rd))
      as (_ & _ & _ & new & Hr & Hm & Hnew).
    { rewrite <- Hi. apply cached_addRoute_same. }
    eexists (_ :: new). rewrite Hr, addRoute_router, <- app_assoc.
    split; [reflexivity|]. split; [simpl; by rewrite Hm|].
    intros r [->|Hin]%elem_of_cons.
    + cbn [action h_controllerClass]. by rewrite Hw.
    + rewrite (Hnew r Hin).
      * by rewrite Hw.
      * apply list_elem_of_In in Hin.
        apply (in_map (fun r => h_routeData (action r))) in Hin.
        rewrite Hm in Hin. apply list_elem_of_In in Hin.
        by destruct (proj1 (Forall_forall _ _) Hall _ Hin).
Qed.

Lemma cache_allocated_fresh (h : gmap addr object) (st : mvc_router) :
  cache_allocated h st -> cached st (fresh (dom h)) = None.
Proof.
  intros Hwf. unfold cached.
  destruct (filter _ (default [] (classesLoaded st))) as [|item l] eqn:E;
    [reflexivity|].
  assert (item ∈ filter (fun item => instance item = fresh (dom h))
                        (default [] (classesLoaded st))) as Hin
    by (rewrite E; left).
  apply list_elem_of_filter in Hin as [Heq Hin].
  exfalso. apply (is_fresh (dom h)). rewrite <- Heq. by apply Hwf.
Qed.

(** In the class-like variant every handler's wrapper holds the
    controller name of the path as its seventh argument. *)
Lemma class_routes_controllerName (cd : controller_data) (c : class_def)
    (h h1 : gmap addr object) (st st1 : mvc_router) :
  controllerDef cd = ClassDef c ->
  cache_allocated h st ->
  loadImplicitRoutes cd h st = Ok (h1, st1) ->
  exists new,
    router st1 = router st ++ new
    /\ forall r, r ∈ new ->
         rd_controllerName (w_routeData (h_controllerClass (action r)))
         = VString (pathControllerName cd).
Proof.
  intros Hdef Hwf. unfold loadImplicitRoutes. rewrite Hdef.
  unfold Js.alloc. intros [= <- <-]. unfold setFunctionActions.
  rewrite (action_loop
             (eligible (<[fresh (dom h) := construct c]> h) (fresh (dom h)))
             (fun n => actionRouteData cd _ (fresh (dom h)) n
                         (VString (pathControllerName cd)))).
  destruct (addRoutes_fresh_instance
              (map (fun n => actionRouteData cd
                               (<[fresh (dom h) := construct c]> h)
                               (fresh (dom h)) n
                               (VString (pathControllerName cd)))
                   (List.filter
                      (eligible (<[fresh (dom h) := construct c]> h)
                                (fresh (dom h)))
                      (List.filter visible (prototype_names c))))
              st (fresh (dom h)) (VString (pathControllerName cd)))
    as (new & Hr & _ & Hnew).
  - by apply cache_allocated_fresh.
  - apply Forall_forall. intros rd Hin.
    apply list_elem_of_In, in_map_iff in Hin as (n & <- & _). by split.
  - exists new. by split.
Qed.

(** C2, as amended. In a [render] call made on the context of a registered
    route, a member [actionName] or [session] of the data object that is
    absent or falsy is set to the raw action name and to the request's
    session; in the class-like variant a member [controllerName] that is
    absent or falsy is set to the controller name as the path has it (the
    name ["default"] being the empty string); a truthy value of any of
    the three members is left as it is. *)
Theorem render_fills_defaults (cd : controller_data)
    (h h1 : gmap addr object) (st st1 : mvc_router) (r : route)
    (req : request F) (res next : value) (args : list value)
    (s : store F) (a : addr) :
  loadImplicitRoutes cd h st = Ok (h1, st1) ->
  cache_allocated h st ->
  r ∈ drop (length (router st)) (router st1) ->
  req_flash req <> FlashNotCallable ->
  resolves_data (heap s) args a ->
  let ctx := newController (action r) req res next in
  let before k := Js.get (heap s) (VRef a) k in
  let keep (v dflt : value) := if Js.truthy v then v else dflt in
  exists rc s',
    render ctx args s = Ok (rc, s')
    /\ rc_data rc = VRef a
    /\ Js.get (heap s') (VRef a) "actionName"
       = keep (before "actionName")
              (VString (rd_actionName (h_routeData (action r))))
    /\ Js.get (heap s') (VRef a) "session"
       = keep (before "session") (req_session req)
    /\ forall c, controllerDef cd = ClassDef c ->
         Js.get (heap s') (VRef a) "controllerName"
         = keep (before "controllerName") (VString (pathControllerName cd)).
Proof.
  intros Hload Hwf Hin Hflash Hres ctx before keep.
  destruct (render_eval ctx args s a Hres) as (o & Hold & Hr).
  destruct (flashed (ctx_req ctx) (flash_state s) (filled ctx o))
    as [[o' f']|] eqn:Hfl.
  2:{ exfalso. unfold flashed in Hfl. cbn [ctx ctx_req newController] in Hfl.
      destruct (req_flash req); try discriminate; [|done].
      by destruct (flash_reads read (flash_state s)) as [[[? ?] ?] ?]. }
  destruct (filled_get ctx o) as (Hcn & Han & Hse & _).
  eexists _, _. split; [exact Hr|]. split; [reflexivity|]. cbn [heap].
  rewrite !(get_lookup _ a _ _ (lookup_insert_eq _ _ _)).
  rewrite !(flashed_get _ _ _ _ _ Hfl) by not_in_names.
  unfold before. rewrite <- !Hold.
  split; [exact Han|]. split; [exact Hse|].
  intros c Hdef. rewrite Hcn.
  destruct (class_routes_controllerName cd c h h1 st st1 Hdef Hwf Hload)
    as (new & Hrouter & Hnew).
  rewrite Hrouter, drop_app_length in Hin.
  cbn [ctx newController ctx_class]. by rewrite (Hnew r Hin).
Qed.

End RenderClaims.

(** ** The README controllers, evaluated *)

Section Evaluated.
Import JsString Pattern Synth Spec Readme.

(** C1. The flat controller of [homeController.js] has an action
    [getSomething], routed as [GET /home/something]: its bare name is
    [something]. A [render] call of that action without a view name asks
    the response for the view ["home/getSomething"], named after the raw
    action name and not after the bare one. *)
Lemma render_default_view_raw_name :
  let st := snd (loaded home_cd store0) in
  let r := nth_route st 1 in
  let ctx := newController (action r) plain_request (VRef 30) (VRef 31) in
  loadImplicitRoutes home_cd store0 initial_router = Ok (store0, st)
  /\ (verb r, path r, rd_actionName (h_routeData (action r)))
     = ("get", "/home/something", "getSomething")
  /\ resolveAction "getSomething" = ("get", "something")
  /\ actionFn (action r) store0 plain_request (VRef 30) (VRef 31)
     = Ok {| callee := InstanceMember (VRef 3); this := ctx; arguments := [] |}
  /\ (exists s',
         render ctx [VRef 7] {| heap := store0; flash_state := tt |}
         = Ok ({| rc_res := VRef 30; rc_view := "home/getSomething";
                  rc_data := VRef 7 |}, s'))
  /\ (exists d s',
         render ctx [] {| heap := store0; flash_state := tt |}
         = Ok ({| rc_res := VRef 30; rc_view := "home/getSomething";
                  rc_data := d |}, s')).
Proof.
  vm_compute. repeat split; try (eexists; reflexivity).
  eexists _, _. reflexivity.
Qed.

(** Counterexample to C2 as stated. The class of the README in
    [defaultController.js]: a [render] call of its action [index] with no
    data sets [controllerName] to the empty string, not to the raw
    controller name ["default"]. And in the flat controller a data object
    [{ actionName: 0 }], whose member the caller supplied, has it
    replaced by the action name. *)
Lemma render_defaults_not_raw :
  (let '(h1, st) := loaded default_cd store0 in
   let ctx := newController (action (nth_route st 0)) plain_request
                (VRef 30) (VRef 31) in
   exists rc s',
     render ctx [] {| heap := h1; flash_state := tt |} = Ok (rc, s')
     /\ Js.get (heap s') (rc_data rc) "controllerName" = VString ""
     /\ VString "" <> VString (controllerName default_cd))
  /\ (let st := snd (loaded home_cd store0) in
      let ctx := newController (action (nth_route st 1)) plain_request
                   (VRef 30) (VRef 31) in
      Js.get store0 (VRef 6) "actionName" = VNumber 0
      /\ exists rc s',
           render ctx [VRef 6] {| heap := store0; flash_state := tt |}
           = Ok (rc, s')
           /\ rc_data rc = VRef 6
           /\ Js.get (heap s') (VRef 6) "actionName" = VString "getSomething").
Proof.
  split.
  - vm_compute. eexists _, _. split; [reflexivity|]. split; [reflexivity|].
    discriminate.
  - vm_compute. split; [reflexivity|]. eexists _, _.
    split; [reflexivity|]. split; reflexivity.
Qed.

(** In the flat variant the wrapper is built from a call with six
    arguments, and [render] sets an absent [controllerName] to
    [undefined]. *)
Lemma render_flat_controllerName :
  let st := snd (loaded home_cd store0) in
  let ctx := newController (action (nth_route st 1)) plain_request
               (VRef 30) (VRef 31) in
  exists rc s',
    render ctx [VRef 7] {| heap := store0; flash_state := tt |} = Ok (rc, s')
    /\ Js.get (heap s') (VRef 7) "controllerName" = VUndefined.
Proof. vm_compute. eexists _, _. split; reflexivity. Qed.

(** Counterexample to C3 as stated. ["PostUser"] starts with the token [post] when
    case is ignored, yet it resolves to verb [get] with its name
    unchanged; and ["index"], which starts with no token, does not keep
    its name. *)
Lemma resolveAction_case_sensitive :
  (trim "PostUser" = "PostUser"
   /\ starts_with_ignoring_case "post" "PostUser" = true
   /\ resolveAction "PostUser" = ("get", "PostUser")
   /\ resolveAction "PostUser" <> ("post", "user"))
  /\ (resolveAction "index" = ("get", "")
      /\ resolveAction "index" <> ("get", "index")).
Proof. vm_compute. repeat split; discriminate. Qed.

(** C4. A flat controller with an enumerable function member named
    [constructor]: [setObjectActions], which has no test on that name,
    registers the route [GET /home/constructor] for it, where the
    class-like variant filters the name out. *)
Lemma flat_constructor_routed :
  let st := snd (loaded home_cd store1) in
  loadImplicitRoutes home_cd store1 initial_router = Ok (store1, st)
  /\ Js.for_in store1 1 = ["constructor"; "index"]
  /\ Js.is_function store1 (Js.get store1 (VRef 1) "constructor") = true
  /\ action_names (router st) = ["constructor"; "index"]
  /\ map (fun r => (verb r, path r)) (router st)
     = [("get", "/home/constructor"); ("get", "/home")].
Proof. vm_compute. repeat split. Qed.

(** An action named after an own member of the context: its route is
    registered, and the handler calls that member, here the continuation
    [next], with the captured values. *)
Lemma dispatch_shadowed_name :
  let st := snd (loaded home_cd store3) in
  let r := nth_route st 0 in
  let req : request unit :=
    {| req_params := {[ "id" := VString "7" ]};
       req_session := VUndefined; req_flash := FlashUndefined |} in
  (verb r, path r) = ("get", "/home/next/:id")
  /\ actionFn (action r) store3 req (VRef 30) (VRef 31)
     = Ok {| callee := OwnNext;
             this := newController (action r) req (VRef 30) (VRef 31);
             arguments := [VString "7"] |}.
Proof. vm_compute. split; reflexivity. Qed.

(** The controller data of the README files. *)
Lemma getControllerData_examples :
  map (fun f => controllerName (getControllerData (ObjectDef 1) f))
    ["homeController.js"; "userController.js"; "defaultController.js";
     "adminCtrl.js"; "api/ItemsCONTROLLER.js"; "about.js"]
  = ["home"; "user"; "default"; "admin"; "api/Items"; "about"]
  /\ getControllerData (ObjectDef 1) "homeController.js" = home_cd.
Proof. vm_compute. split; reflexivity. Qed.

(** The routes of the two README controllers. *)
Lemma readme_routes :
  map (fun r => (verb r, path r)) (router (snd (loaded home_cd store0)))
  = [("get", "/home"); ("get", "/home/something");
     ("get", "/home/somethingElse"); ("get", "/home/withParameters/:foo/:bar");
     ("post", "/home"); ("post", "/home/something")]
  /\ map (fun r => (verb r, path r)) (router (snd (loaded user_cd store0)))
     = [("get", "/user"); ("get", "/user/user/:userId")]
  /\ map (fun r => (verb r, path r)) (router (snd (loaded default_cd store0)))
     = [("get", "/"); ("get", "/user/:userId")].
Proof. vm_compute. repeat split. Qed.

(** What the parameter extractor reads off some function texts. *)
Lemma parameterNames_examples :
  map parameterNames
    ["function(foo, bar) { }"; "getUser(userId){ }"; "function () { }";
     "function ( ) { }"; "(a,b) => a + b"; "x => x";
     "async function f(a) { }"]
  = [Some ["foo"; "bar"]; Some ["userId"]; Some []; Some [""];
     Some ["a"; "b"]; None; None].
Proof. vm_compute. reflexivity. Qed.

End Evaluated.

(** ** The theorems at the README controllers *)

Section Instances.
Import JsString Pattern Synth Spec Readme.

Lemma resolveAction_spec_witness :
  resolveAction "postSomething" = ("post", "something")
  /\ resolveAction "about" = ("get", "about").
Proof.
  split.
  - apply (proj1 (resolveAction_spec "postSomething") "post" "Something").
    + apply list_elem_of_In. simpl. tauto.
    + reflexivity.
  - apply (proj2 (resolveAction_spec "about")).
    intros tok rest Hin Heq. apply list_elem_of_In in Hin. simpl in Hin.
    destruct Hin as [<-|[<-|[<-|[<-|[<-|[]]]]]]; vm_compute in Heq;
      discriminate Heq.
Defined.

Lemma flat_actions_witness :
  exists st' new,
    loadImplicitRoutes home_cd store0 initial_router = Ok (store0, st')
    /\ router st' = router initial_router ++ new
    /\ action_names new
       = List.filter
           (fun k => Js.is_function store0 (Js.get store0 (VRef 1) k)
                     && negb (String.eqb (charAt0 k) "_"))
           (Js.for_in store0 1)
    /\ Forall (fun r => rd_instance (h_routeData (action r)) = 1) new.
Proof. apply (flat_actions home_cd 1 store0 initial_router). reflexivity. Defined.


Lemma hidden_actions_unrouted_witness :
  exists new,
    router (snd (loaded home_cd store0)) = router initial_router ++ new
    /\ forall name, name ∈ action_names new -> charAt0 name <> "_".
Proof.
  apply (hidden_actions_unrouted home_cd store0 store0 initial_router
           (snd (loaded home_cd store0))).
  vm_compute. reflexivity.
Defined.

Lemma wrapper_built_once_witness :
  wrappers_for
    (addRoutes
       [actionRouteData home_cd store0 1 "getSomething" VUndefined;
        actionRouteData home_cd store0 1 "post" VUndefined]
       (addRoute (actionRouteData home_cd store0 1 "get" VUndefined)
                 initial_router)) 1 = 1.
Proof.
  destruct (wrapper_built_once initial_router
              (actionRouteData home_cd store0 1 "get" VUndefined)
              [actionRouteData home_cd store0 1 "getSomething" VUndefined;
               actionRouteData home_cd store0 1 "post" VUndefined])
    as (w & new & _ & _ & _ & _ & _ & _ & _ & Hone & _).
  apply Hone. reflexivity.
Defined.

Lemma render_flash_witness :
  let ctx := newController (action (nth_route (snd (loaded home_cd store0)) 1))
               flash_request (VRef 30) (VRef 31) in
  exists rc h',
    render ctx [VString "customView"; VRef 6]
           {| heap := store0; flash_state := 5 |}
    = Ok (rc, {| heap := h'; flash_state := 8 |})
    /\ rc_data rc = VRef 6
    /\ Js.get h' (VRef 6) "success" = VNumber 5
    /\ Js.get h' (VRef 6) "error" = VNumber 6
    /\ Js.get h' (VRef 6) "info" = VNumber 7.
Proof.
  intros ctx.
  apply (render_flash ctx [VString "customView"; VRef 6]
           {| heap := store0; flash_state := 5 |} 6).
  right. split; [reflexivity|]. apply elem_of_dom. vm_compute. eauto.
Defined.

Lemma render_fills_defaults_witness :
  let h1 := fst (loaded user_cd store0) in
  let r := nth_route (snd (loaded user_cd store0)) 1 in
  let ctx := newController (action r) plain_request (VRef 30) (VRef 31) in
  let s : store unit := {| heap := h1; flash_state := tt |} in
  let before k := Js.get (heap s) (VRef 6) k in
  let keep (v dflt : value) := if Js.truthy v then v else dflt in
  exists rc s',
    render ctx [VRef 6] s = Ok (rc, s')
    /\ rc_data rc = VRef 6
    /\ Js.get (heap s') (VRef 6) "actionName"
       = keep (before "actionName")
              (VString (rd_actionName (h_routeData (action r))))
    /\ Js.get (heap s') (VRef 6) "session"
       = keep (before "session") (req_session plain_request)
    /\ forall c, controllerDef user_cd = ClassDef c ->
         Js.get (heap s') (VRef 6) "controllerName"
         = keep (before "controllerName")
                (VString (pathControllerName user_cd)).
Proof.
  apply (render_fills_defaults (F := unit) user_cd store0
           (fst (loaded user_cd store0)) initial_router
           (snd (loaded user_cd store0))).
  - vm_compute. reflexivity.
  - intros item Hin. by apply elem_of_nil in Hin.
  - apply (list_elem_of_lookup_2 _ 1). vm_compute. reflexivity.
  - discriminate.
  - right. split; [reflexivity|]. apply elem_of_dom. vm_compute. eauto.
Defined.

End Instances.

(** ** Verbs and paths of the registered routes *)

Section Verbs.
Import JsString Pattern Synth Spec Shape.

Lemma first_token_elem (toks : list string) (s tok rest : string) :
  first_token toks s = Some (tok, rest) -> tok ∈ toks /\ s = tok +:+ rest.
Proof.
  induction toks as [|t toks IH]; simpl; [discriminate|].
  destruct (strip_prefix t s) as [r|] eqn:E.
  - intros [= <- <-]. split; [left|]. by apply strip_prefix_Some.
  - intros H. destruct (IH H) as [Hin Heq]. split; [by right|exact Heq].
Qed.

(** X3. [getMethod] returns one of the five verbs, whichever pattern it is
    asked to use and whatever the name. *)
Theorem getMethod_verb (pathName : string) (isExplicit : bool) :
  getMethod pathName isExplicit ∈ verbs.
Proof.
  unfold getMethod.
  destruct isExplicit.
  - destruct (explicitMethodPattern pathName) as [[g1 rest]|] eqn:E;
      [|apply list_elem_of_In; simpl; tauto].
    unfold explicitMethodPattern in E.
    destruct (strip_prefix "{" pathName) as [r|]; [|discriminate].
    destruct (first_token explicit_tokens (dropWhile is_space r))
      as [[tok r']|] eqn:Et; [|discriminate].
    destruct (strip_prefix "}" (dropWhile is_space r')); [|discriminate].
    injection E as <- _.
    apply first_token_elem in Et as [Hin _]. unfold explicit_tokens in Hin.
    repeat (apply elem_of_cons in Hin as [->|Hin]);
      [ .. | by apply elem_of_nil in Hin ];
      apply list_elem_of_In; vm_compute; tauto.
  - destruct (implicitMethodPattern pathName) as [[g1 rest]|] eqn:E;
      [|apply list_elem_of_In; simpl; tauto].
    apply first_token_elem in E as [Hin _]. unfold implicit_tokens in Hin.
    repeat (apply elem_of_cons in Hin as [->|Hin]);
      [ .. | by apply elem_of_nil in Hin ];
      apply list_elem_of_In; vm_compute; tauto.
Qed.

Lemma dropWhile_split (p : ascii -> bool) (s : string) :
  exists pre, s = pre +:+ dropWhile p s /\ all p pre = true.
Proof.
  induction s as [|c s IH]; simpl.
  - by exists EmptyString.
  - destruct (p c) eqn:E.
    + destruct IH as (pre & Heq & Hall). exists (String c pre). split.
      * rewrite append_cons. by rewrite <- Heq.
      * simpl. by rewrite E.
    + by exists EmptyString.
Qed.

Lemma dropWhile_head (p : ascii -> bool) (s : string) (c : ascii) (r : string) :
  dropWhile p s = String c r -> p c = false.
Proof.
  induction s as [|d s IH]; simpl; [discriminate|].
  destruct (p d) eqn:E; [exact IH|]. by intros [= <- _].
Qed.

Lemma all_slashes (pre : string) :
  all (Ascii.eqb "/"%char) pre = true -> pre = slashes (String.length pre).
Proof.
  induction pre as [|c pre IH]; [reflexivity|].
  cbn [all String.length slashes].
  intros [Hc Hp]%andb_prop. apply Ascii.eqb_eq in Hc. subst c.
  by rewrite <- IH.
Qed.

(** X10. The path [addRoute] registers starts with one slash and no more,
    however many slashes the synthesized path starts with: these are
    removed and one is put in front. *)
Theorem registered_path_one_slash (rd : route_data) (st : mvc_router) :
  exists q k w,
    router (addRoute rd st)
    = router st ++ [ {| verb := rd_method rd; path := "/" +:+ q;
                        action := {| h_routeData := rd;
                                     h_controllerClass := w |} |} ]
    /\ rd_path rd = slashes k +:+ q
    /\ strip_prefix "/" q = None.
Proof.
  destruct (dropWhile_split (Ascii.eqb "/"%char) (rd_path rd)) as (pre & Heq & Hall).
  exists (stripLeadingSlashes (rd_path rd)), (String.length pre), (chosen st rd).
  split; [apply addRoute_router|]. split.
  - rewrite <- (all_slashes pre Hall). exact Heq.
  - unfold stripLeadingSlashes.
    destruct (dropWhile (Ascii.eqb "/"%char) (rd_path rd)) as [|c r] eqn:E;
      [reflexivity|].
    apply dropWhile_head in E. cbn [strip_prefix]. by rewrite E.
Qed.

End Verbs.

(** ** Controller names *)

Section ControllerNames.
Import JsString Pattern Synth Spec Shape.

Lemma lower_char_dot (c : ascii) : eqb_ci "." c = true -> c = "."%char.
Proof.
  unfold eqb_ci. intros H. apply Ascii.eqb_eq in H. revert H.
  destruct c as [[] [] [] [] [] [] [] []]; vm_compute; congruence.
Qed.

Lemma eqb_ci_trans_false (a b c : ascii) :
  eqb_ci a c = true -> lower_char a <> lower_char b -> eqb_ci b c = false.
Proof.
  unfold eqb_ci. intros H Hne. apply Ascii.eqb_eq in H.
  apply Ascii.eqb_neq. congruence.
Qed.

Lemma removeControllerSuffix_eq (s : string) :
  removeControllerSuffix s
  = match controllerSuffixPattern s with
    | Some rest => rest
    | None =>
        match s with
        | EmptyString => EmptyString
        | String c s' => String c (removeControllerSuffix s')
        end
    end.
Proof. by destruct s. Qed.

(** A pattern [q.js] with no dot in [q], against [w] followed by an
    extension, with no dot in [w]: it matches when [q] and [w] are equal up
    to letter case, and then up to the end. *)
Lemma strip_prefix_ci_stem (q w ext : string) :
  no_char "." q = true -> no_char "." w = true -> equal_ci ".js" ext = true ->
  strip_prefix_ci (q +:+ ".js") (w +:+ ext)
  = if equal_ci q w then Some EmptyString else None.
Proof.
  intros Hq Hw Hext. revert w Hw.
  induction q as [|a q IH]; intros w Hw.
  - destruct w as [|c w].
    + unfold equal_ci in Hext. cbn [String.append] in *.
      change (EmptyString +:+ ".js") with ".js". change (EmptyString +:+ ext) with ext.
      destruct (strip_prefix_ci ".js" ext) as [[|]|]; done.
    + change (EmptyString +:+ ".js") with ".js". rewrite append_cons.
      cbn [strip_prefix_ci equal_ci].
      destruct (eqb_ci "." c) eqn:E; [|reflexivity].
      apply lower_char_dot in E. subst c. cbn [no_char all] in Hw.
      by rewrite Ascii.eqb_refl in Hw.
  - cbn [no_char all] in Hq. apply andb_prop in Hq as [Ha Hq].
    rewrite append_cons. destruct w as [|c w].
    + change (EmptyString +:+ ext) with ext. cbn [equal_ci strip_prefix_ci].
      destruct ext as [|d ext]; [reflexivity|]. cbn [strip_prefix_ci].
      destruct (eqb_ci a d) eqn:E; [|reflexivity]. exfalso.
      unfold equal_ci in Hext. cbn [strip_prefix_ci] in Hext.
      destruct (eqb_ci "." d) eqn:Ed; [|discriminate].
      apply lower_char_dot in Ed. subst d.
      assert (a = "."%char) as ->.
      { unfold eqb_ci in E. apply Ascii.eqb_eq in E.
        apply lower_char_dot. unfold eqb_ci. apply Ascii.eqb_eq. by rewrite E. }
      by rewrite Ascii.eqb_refl in Ha.
    + rewrite append_cons. cbn [no_char all] in Hw.
      apply andb_prop in Hw as [_ Hw]. unfold equal_ci. cbn [strip_prefix_ci].
      destruct (eqb_ci a c); [|reflexivity]. apply (IH Hq w Hw).
Qed.

Lemma controllerSuffixPattern_stem (w ext : string) :
  no_char "." w = true -> equal_ci ".js" ext = true ->
  controllerSuffixPattern (w +:+ ext)
  = if equal_ci "controller" w || equal_ci "ctrl" w || negb (nonempty w)
    then Some EmptyString else None.
Proof.
  intros Hw Hext. unfold controllerSuffixPattern.
  change "controller.js" with ("controller" +:+ ".js").
  change "ctrl.js" with ("ctrl" +:+ ".js").
  change (strip_prefix_ci ".js" (w +:+ ext))
    with (strip_prefix_ci (EmptyString +:+ ".js") (w +:+ ext)).
  rewrite !strip_prefix_ci_stem by done.
  destruct (equal_ci "controller" w); [reflexivity|].
  destruct (equal_ci "ctrl" w); [reflexivity|].
  by destruct w.
Qed.

Lemma removeControllerSuffix_stem (stem ext : string) :
  no_char "." stem = true -> equal_ci ".js" ext = true ->
  removeControllerSuffix (stem +:+ ext) = strip_word stem.
Proof.
  intros Hs Hext. induction stem as [|c stem IH].
  - rewrite removeControllerSuffix_eq, controllerSuffixPattern_stem by done.
    reflexivity.
  - rewrite removeControllerSuffix_eq, controllerSuffixPattern_stem by done.
    cbn [strip_word nonempty negb]. rewrite orb_false_r.
    destruct (equal_ci "controller" (String c stem) || equal_ci "ctrl" (String c stem));
      [reflexivity|].
    rewrite append_cons. f_equal. apply IH.
    cbn [no_char all] in Hs. by apply andb_prop in Hs as [_ Hs].
Qed.

Lemma strip_prefix_ci_length (p s r : string) :
  strip_prefix_ci p s = Some r ->
  String.length s = String.length p + String.length r.
Proof.
  revert s. induction p as [|a p IH]; intros s H.
  - by injection H as ->.
  - destruct s as [|c s]; [discriminate|]. cbn [strip_prefix_ci] in H.
    destruct (eqb_ci a c); [|discriminate]. cbn [String.length].
    by rewrite (IH s H).
Qed.

Lemma equal_ci_length (w s : string) :
  equal_ci w s = true -> String.length s = String.length w.
Proof.
  unfold equal_ci. destruct (strip_prefix_ci w s) as [[|]|] eqn:E; try discriminate.
  intros _. rewrite (strip_prefix_ci_length _ _ _ E). simpl. lia.
Qed.

Lemma length_append (a b : string) :
  String.length (a +:+ b) = String.length a + String.length b.
Proof.
  induction a as [|x a IH]; [reflexivity|].
  rewrite append_cons. cbn [String.length]. by rewrite IH.
Qed.

Lemma equal_ci_no_dot (q w : string) :
  no_char "." q = true -> equal_ci q w = true -> no_char "." w = true.
Proof.
  unfold equal_ci, no_char. revert w. induction q as [|a q IH]; intros w Hq H.
  - destruct w; [reflexivity|discriminate].
  - destruct w as [|c w]; [discriminate|]. cbn [strip_prefix_ci] in H.
    destruct (eqb_ci a c) eqn:E; [|discriminate].
    cbn [all] in Hq |- *. apply andb_prop in Hq as [Ha Hq].
    rewrite (IH w Hq H), andb_true_r.
    destruct (Ascii.eqb c ".") eqn:Ec; [|reflexivity].
    apply Ascii.eqb_eq in Ec. subst c. exfalso.
    assert (a = "."%char) as ->.
    { unfold eqb_ci in E. apply Ascii.eqb_eq in E.
      apply lower_char_dot. unfold eqb_ci. apply Ascii.eqb_eq. by rewrite E. }
    by rewrite Ascii.eqb_refl in Ha.
Qed.

Lemma no_char_append (d : ascii) (a b : string) :
  no_char d (a +:+ b) = no_char d a && no_char d b.
Proof.
  unfold no_char. induction a as [|x a IH]; [reflexivity|].
  rewrite append_cons. cbn [all]. by rewrite IH, andb_assoc.
Qed.

(** A longer string that ends with the word is not the word. *)
Lemma strip_word_append (name word : string) :
  equal_ci "controller" word = true \/ equal_ci "ctrl" word = true ->
  strip_word (name +:+ word) = name.
Proof.
  intros Hword. induction name as [|c name IH].
  - change (EmptyString +:+ word) with word.
    destruct word as [|d word]; [by destruct Hword|].
    cbn [strip_word]. by destruct Hword as [-> | ->]; rewrite ?orb_true_r.
  - rewrite append_cons. cbn [strip_word]. rewrite <- append_cons.
    assert (equal_ci "ctrl" (String c name +:+ word) = false) as ->.
    { destruct (equal_ci "ctrl" (String c name +:+ word)) eqn:E; [|reflexivity].
      apply equal_ci_length in E. rewrite length_append in E.
      destruct Hword as [H|H]; apply equal_ci_length in H;
        cbn [String.length] in *; lia. }
    assert (equal_ci "controller" (String c name +:+ word) = false) as ->.
    { destruct (equal_ci "controller" (String c name +:+ word)) eqn:E;
        [|reflexivity].
      pose proof (equal_ci_length _ _ E) as Hl. rewrite length_append in Hl.
      destruct Hword as [H|H]; pose proof (equal_ci_length _ _ H) as Hw;
        cbn [String.length] in *; [lia|].
      exfalso.
      destruct name as [|c2 [|c3 [|c4 [|c5 [|c6 [|c7 name]]]]]];
        cbn [String.length] in Hl; try lia.
      destruct word as [|d word]; [discriminate|].
      unfold equal_ci in E, H. rewrite !append_cons in E.
      cbn [strip_prefix_ci] in E, H.
      destruct (eqb_ci "c" d) eqn:Ed; [|discriminate].
      repeat match type of E with
             | context [if eqb_ci ?a ?b then _ else _] =>
                 destruct (eqb_ci a b) eqn:?; [|discriminate]
             end.
      change (EmptyString +:+ String d word) with (String d word) in E.
      cbn [strip_prefix_ci] in E.
      rewrite (eqb_ci_trans_false "c" "l" d Ed) in E by (vm_compute; congruence).
      discriminate. }
    cbn [orb]. by rewrite IH.
Qed.

Lemma strip_word_id (stem : string) :
  ~ ends_with_ci "controller" stem -> ~ ends_with_ci "ctrl" stem ->
  strip_word stem = stem.
Proof.
  induction stem as [|c stem IH]; intros H1 H2.
  - reflexivity.
  - cbn [strip_word].
    destruct (equal_ci "controller" (String c stem)) eqn:E1.
    { exfalso. apply H1. by exists EmptyString, (String c stem). }
    destruct (equal_ci "ctrl" (String c stem)) eqn:E2.
    { exfalso. apply H2. by exists EmptyString, (String c stem). }
    cbn [orb]. f_equal. apply IH.
    + intros (pre & tail & -> & Ht). apply H1. by exists (String c pre), tail.
    + intros (pre & tail & -> & Ht). apply H2. by exists (String c pre), tail.
Qed.

(** X1. A file [name + word + ext], where [word] is [controller] or [ctrl] and
    [ext] is [.js], each in any letter case, and [name] holds no dot:
    [getControllerData] gives [name] as controller name and as view base
    name, whatever the export is. *)
Theorem getControllerData_word (controller : controller_def)
    (name word ext : string) :
  no_char "." name = true ->
  equal_ci "controller" word = true \/ equal_ci "ctrl" word = true ->
  equal_ci ".js" ext = true ->
  getControllerData controller (name +:+ word +:+ ext)
  = {| controllerDef := controller; controllerName := name;
       viewBaseName := name |}.
Proof.
  intros Hname Hword Hext. unfold getControllerData.
  rewrite <- append_assoc, removeControllerSuffix_stem, strip_word_append; try done.
  rewrite no_char_append, Hname.
  destruct Hword as [H|H].
  - by rewrite (equal_ci_no_dot "controller" word eq_refl H).
  - by rewrite (equal_ci_no_dot "ctrl" word eq_refl H).
Qed.

(** X2. A file [stem + ext], where [ext] is [.js] in any letter case and [stem]
    holds no dot and does not end with [controller] or [ctrl]: the
    controller name is the stem. *)
Theorem getControllerData_plain (controller : controller_def)
    (stem ext : string) :
  no_char "." stem = true ->
  ~ ends_with_ci "controller" stem -> ~ ends_with_ci "ctrl" stem ->
  equal_ci ".js" ext = true ->
  getControllerData controller (stem +:+ ext)
  = {| controllerDef := controller; controllerName := stem;
       viewBaseName := stem |}.
Proof.
  intros Hstem H1 H2 Hext. unfold getControllerData.
  by rewrite removeControllerSuffix_stem, strip_word_id.
Qed.

End ControllerNames.

(** ** The parameter extractor *)

Section Extractor.
Import JsString Pattern Synth Spec Shape.

Lemma word_char (c : ascii) :
  is_word c = true ->
  is_space c = false /\ Ascii.eqb c "," = false /\ Ascii.eqb c "(" = false
  /\ Ascii.eqb c ")" = false /\ is_line_terminator c = false.
Proof.
  destruct c as [[] [] [] [] [] [] [] []]; vm_compute; intros H;
    first [discriminate H | repeat split].
Qed.

Lemma space_char (c : ascii) :
  is_space c = true ->
  is_word c = false /\ Ascii.eqb c "," = false /\ Ascii.eqb c "(" = false
  /\ Ascii.eqb c ")" = false.
Proof.
  destruct c as [[] [] [] [] [] [] [] []]; vm_compute; intros H;
    first [discriminate H | repeat split].
Qed.

Lemma all_append (p : ascii -> bool) (a b : string) :
  all p (a +:+ b) = all p a && all p b.
Proof.
  induction a as [|x a IH]; [reflexivity|].
  rewrite append_cons. cbn [all]. by rewrite IH, andb_assoc.
Qed.

Lemma all_impl (p q : ascii -> bool) (s : string) :
  (forall c, p c = true -> q c = true) -> all p s = true -> all q s = true.
Proof.
  intros Hpq. induction s as [|c s IH]; [reflexivity|]. cbn [all].
  intros [Hc Hs]%andb_prop. by rewrite (Hpq c Hc), IH.
Qed.

Lemma blank_space (s : string) : blank s = true -> all is_space s = true.
Proof. apply all_impl. by intros c [H _]%andb_prop. Qed.

Lemma split_first_append (d : ascii) (a b : string) :
  no_char d a = true -> split_first d (a +:+ String d b) = Some (a, b).
Proof.
  unfold no_char. induction a as [|x a IH]; intros H.
  - change (EmptyString +:+ String d b) with (String d b).
    cbn [split_first]. by rewrite Ascii.eqb_refl.
  - cbn [all] in H. apply andb_prop in H as [Hx Ha].
    rewrite append_cons. cbn [split_first].
    apply negb_true_iff in Hx. by rewrite Hx, IH.
Qed.

Lemma dropWhile_all (p : ascii -> bool) (a b : string) :
  all p a = true -> dropWhile p (a +:+ b) = dropWhile p b.
Proof.
  induction a as [|x a IH]; [reflexivity|]. cbn [all].
  intros [Hx Ha]%andb_prop. rewrite append_cons. cbn [dropWhile].
  by rewrite Hx, IH.
Qed.

Lemma dropWhile_empty (p : ascii -> bool) (s : string) :
  dropWhile p s = EmptyString -> all p s = true.
Proof.
  induction s as [|c s IH]; [reflexivity|]. cbn [dropWhile all].
  destruct (p c); [exact IH|discriminate].
Qed.

Lemma word_space_chars (h : string) :
  word_space h = true -> all (fun c => is_word c || is_space c) h = true.
Proof.
  unfold word_space. intros H. apply negb_true_iff in H.
  destruct (dropWhile_split is_word h) as (pre & Heq & Hpre).
  destruct (dropWhile is_space (dropWhile is_word h)) eqn:E; [|discriminate].
  apply dropWhile_empty in E. rewrite Heq, all_append.
  rewrite (all_impl is_word _ pre), (all_impl is_space _ (dropWhile is_word h));
    try done.
  - intros c ->. apply orb_true_r.
  - by intros c ->.
Qed.

Lemma all_append_true (p : ascii -> bool) (a b : string) :
  all p a = true -> all p b = true -> all p (a +:+ b) = true.
Proof. intros Ha Hb. by rewrite all_append, Ha, Hb. Qed.

Lemma signature_head_no_paren (h : string) :
  signature_head h = true -> no_char "(" h = true.
Proof.
  intros H.
  assert (all (fun c => is_word c || is_space c) h = true) as Hall.
  { unfold signature_head in H. apply orb_prop in H as [H|H].
    - by apply word_space_chars.
    - destruct (dropWhile_split is_space h) as (pre & Heq & Hpre).
      destruct (strip_prefix "function" (dropWhile is_space h))
        as [[|c r]|] eqn:E; try discriminate.
      apply strip_prefix_Some in E. apply andb_prop in H as [Hc Hr].
      destruct (dropWhile_split is_space r) as (pre2 & Heq2 & Hpre2).
      apply word_space_chars in Hr.
      rewrite Heq, E. apply all_append_true.
      { revert Hpre. apply all_impl. intros ? ->. apply orb_true_r. }
      apply all_append_true; [reflexivity|].
      cbn [all]. rewrite Hc, orb_true_r. cbn [andb].
      rewrite Heq2. apply all_append_true; [|exact Hr].
      revert Hpre2. apply all_impl. intros ? ->. apply orb_true_r. }
  revert Hall. apply all_impl. intros c [Hc|Hc]%orb_prop.
  - destruct (word_char c Hc) as (_ & _ & -> & _). reflexivity.
  - destruct (space_char c Hc) as (_ & _ & -> & _). reflexivity.
Qed.

Lemma trimEnd_space (x t : string) :
  all is_space t = true -> trimEnd (x +:+ t) = trimEnd x.
Proof.
  intros Ht. induction x as [|c x IH].
  - change (EmptyString +:+ t) with t. induction t as [|d t IHt]; [reflexivity|].
    cbn [all] in Ht. apply andb_prop in Ht as [Hd Ht].
    cbn [trimEnd]. by rewrite (IHt Ht), Hd.
  - rewrite append_cons. cbn [trimEnd]. by rewrite IH.
Qed.

Lemma trimEnd_word (w : string) : all is_word w = true -> trimEnd w = w.
Proof.
  induction w as [|c w IH]; [reflexivity|]. cbn [all trimEnd].
  intros [Hc Hw]%andb_prop. destruct (word_char c Hc) as (-> & _).
  by rewrite (IH Hw).
Qed.

Lemma trimEnd_identifier (pre w : string) :
  identifier w = true -> trimEnd (pre +:+ w) = pre +:+ w.
Proof.
  unfold identifier. intros [Hn Hw]%andb_prop. induction pre as [|c pre IH].
  - by apply trimEnd_word.
  - rewrite append_cons. cbn [trimEnd]. rewrite IH.
    rewrite (nonempty_append_r pre w Hn). by rewrite andb_false_r.
Qed.

Lemma split_word_char (skip : bool) (cur : list ascii) (c : ascii) (s : string) :
  is_word c = true ->
  splitCommaAux skip cur [] (String c s) = splitCommaAux false (c :: cur) [] s.
Proof.
  intros Hc. destruct (word_char c Hc) as (Hs & Hcomma & _).
  cbn [splitCommaAux]. by rewrite Hs, Hcomma.
Qed.

Lemma split_word (cur : list ascii) (w s : string) :
  all is_word w = true ->
  splitCommaAux false cur [] (w +:+ s)
  = splitCommaAux false (rev (list_ascii_of_string w) ++ cur) [] s.
Proof.
  revert cur. induction w as [|c w IH]; intros cur Hw; [reflexivity|].
  cbn [all] in Hw. apply andb_prop in Hw as [Hc Hw].
  rewrite append_cons, split_word_char, IH by done.
  cbn [list_ascii_of_string rev]. by rewrite <- app_assoc.
Qed.

Lemma split_identifier (skip : bool) (w s : string) :
  identifier w = true ->
  splitCommaAux skip [] [] (w +:+ s)
  = splitCommaAux false (rev (list_ascii_of_string w)) [] s.
Proof.
  unfold identifier. intros [Hn Hw]%andb_prop.
  destruct w as [|c w]; [discriminate|]. cbn [all] in Hw.
  apply andb_prop in Hw as [Hc Hw].
  by rewrite append_cons, split_word_char, split_word.
Qed.

Lemma split_space_pend (cur pend : list ascii) (sp s : string) :
  all is_space sp = true ->
  splitCommaAux false cur pend (sp +:+ s)
  = splitCommaAux false cur (rev (list_ascii_of_string sp) ++ pend) s.
Proof.
  revert pend. induction sp as [|c sp IH]; intros pend Hsp; [reflexivity|].
  cbn [all] in Hsp. apply andb_prop in Hsp as [Hc Hsp].
  rewrite append_cons. cbn [splitCommaAux]. rewrite Hc, IH by done.
  cbn [list_ascii_of_string rev]. by rewrite <- app_assoc.
Qed.

Lemma split_space_skip (sp s : string) :
  all is_space sp = true ->
  splitCommaAux true [] [] (sp +:+ s) = splitCommaAux true [] [] s.
Proof.
  induction sp as [|c sp IH]; intros Hsp; [reflexivity|].
  cbn [all] in Hsp. apply andb_prop in Hsp as [Hc Hsp].
  rewrite append_cons. cbn [splitCommaAux]. by rewrite Hc, IH.
Qed.

Lemma split_separator (cur : list ascii) (sp1 sp2 s : string) :
  all is_space sp1 = true -> all is_space sp2 = true ->
  splitCommaAux false cur [] (sp1 +:+ "," +:+ sp2 +:+ s)
  = string_of_list_ascii (rev cur) :: splitCommaAux true [] [] s.
Proof.
  intros H1 H2. rewrite split_space_pend by done.
  change ("," +:+ sp2 +:+ s) with (String "," (sp2 +:+ s)).
  cbn [splitCommaAux].
  change (is_space ",") with false. change (Ascii.eqb "," ",") with true.
  cbv iota. by rewrite split_space_skip.
Qed.

Lemma rev_rev_string (w : string) :
  string_of_list_ascii (rev (rev (list_ascii_of_string w))) = w.
Proof. by rewrite rev_involutive, string_of_list_ascii_of_string. Qed.


Lemma split_first_none (d : ascii) (s : string) :
  no_char d s = true -> split_first d s = None.
Proof.
  unfold no_char. induction s as [|c s IH]; [reflexivity|]. cbn [all split_first].
  intros [Hc Hs]%andb_prop. apply negb_true_iff in Hc. by rewrite Hc, IH.
Qed.

(** What the signature pattern captures in a text [head(inner)rest]. *)
Lemma signaturePattern_shape (head inner rest : string) :
  no_char "(" head = true -> no_char ")" inner = true ->
  signaturePattern (head +:+ "(" +:+ inner +:+ ")" +:+ rest)
  = if signature_head head
       && all (fun c => negb (is_line_terminator c)) inner
    then Some inner else None.
Proof.
  intros Hh Hi. unfold signaturePattern.
  change ("(" +:+ inner +:+ ")" +:+ rest)
    with (String "(" (inner +:+ String ")" rest)).
  rewrite split_first_append by done.
  destruct (signature_head head); [|reflexivity].
  by rewrite split_first_append.
Qed.



Lemma trim_padded (lead body trail : string) :
  all is_space lead = true -> all is_space trail = true ->
  (exists c r, body = String c r /\ is_word c = true) ->
  (exists pre w, body = pre +:+ w /\ identifier w = true) ->
  trim (lead +:+ body +:+ trail) = body.
Proof.
  intros Hl Ht (c & r & Hb & Hc) (pre & w & Hb' & Hw).
  unfold trim, trimStart. rewrite dropWhile_all by done.
  rewrite Hb at 1. rewrite append_cons. cbn [dropWhile].
  destruct (word_char c Hc) as (-> & _).
  rewrite <- append_cons, <- Hb, trimEnd_space by done.
  rewrite Hb'. by apply trimEnd_identifier.
Qed.



(** X7. A parameter list that is empty gives no name, and one that holds only
    white space (on one line) gives one name, the empty string. *)
Theorem parameterNames_blank (head inner rest : string) :
  signature_head head = true -> blank inner = true ->
  parameterNames (head +:+ "(" +:+ inner +:+ ")" +:+ rest)
  = Some (if nonempty inner then [EmptyString] else []).
Proof.
  intros Hhead Hi. unfold parameterNames.
  rewrite signaturePattern_shape, Hhead.
  - rewrite (all_impl _ (fun c => negb (is_line_terminator c)) inner
               (fun c H => proj2 (andb_prop _ _ H)) Hi).
    cbn [andb]. destruct (nonempty inner); [|reflexivity].
    unfold trim, trimStart.
    rewrite <- (append_empty_r inner), dropWhile_all by by apply blank_space.
    reflexivity.
  - by apply signature_head_no_paren.
  - revert Hi. apply all_impl. intros c [Hc _]%andb_prop.
    by destruct (space_char c Hc) as (_ & _ & _ & ->).
Qed.

(** X8. When the extractor gives the absent result: the text has no opening
    parenthesis; or what stands before the first one is no head of the
    signature pattern; or a line terminator stands between the first
    opening parenthesis and the first closing one; or there is no closing
    parenthesis. *)
Theorem parameterNames_absent :
  (forall src, no_char "(" src = true -> parameterNames src = None)
  /\ (forall head tail,
        no_char "(" head = true -> signature_head head = false ->
        parameterNames (head +:+ "(" +:+ tail) = None)
  /\ (forall head inner rest,
        no_char "(" head = true -> no_char ")" inner = true ->
        all (fun c => negb (is_line_terminator c)) inner = false ->
        parameterNames (head +:+ "(" +:+ inner +:+ ")" +:+ rest) = None)
  /\ (forall head tail,
        no_char "(" head = true -> no_char ")" tail = true ->
        parameterNames (head +:+ "(" +:+ tail) = None).
Proof.
  unfold parameterNames, signaturePattern. repeat split.
  - intros src H. by rewrite split_first_none.
  - intros head tail Hh Hs.
    change ("(" +:+ tail) with (String "(" tail).
    by rewrite split_first_append, Hs.
  - intros head inner rest Hh Hi Hl.
    change ("(" +:+ inner +:+ ")" +:+ rest)
      with (String "(" (inner +:+ String ")" rest)).
    rewrite split_first_append by done.
    destruct (signature_head head); [|reflexivity].
    by rewrite split_first_append, Hl.
  - intros head tail Hh Ht.
    change ("(" +:+ tail) with (String "(" tail).
    rewrite split_first_append by done.
    destruct (signature_head head); [|reflexivity].
    by rewrite split_first_none.
Qed.

End Extractor.

(** ** The cache of wrappers as an invariant of the router *)

Section CacheInvariant.
Import JsString Pattern Synth Spec Shape.

Lemma cached_None_instance (st : mvc_router) (i : addr) :
  cached st i = None ->
  ~ In i (map instance (default [] (classesLoaded st))).
Proof.
  unfold cached. intros Hc (item & Hi & Hin)%in_map_iff.
  assert (item ∈ filter (fun item => instance item = i)
                        (default [] (classesLoaded st))) as Hf.
  { apply list_elem_of_filter. split; [exact Hi|by apply list_elem_of_In]. }
  destruct (filter _ (default [] (classesLoaded st))); [|discriminate].
  by apply elem_of_nil in Hf.
Qed.

Lemma cached_Some_entry (st : mvc_router) (i : addr) (w : wrapper) :
  cached st i = Some w ->
  exists item, item ∈ default [] (classesLoaded st)
               /\ instance item = i /\ controller item = w.
Proof.
  unfold cached.
  destruct (filter _ (default [] (classesLoaded st))) as [|item l] eqn:E;
    [discriminate|].
  intros [= <-]. exists item.
  assert (item ∈ filter (fun item => instance item = i)
                        (default [] (classesLoaded st))) as Hf
    by (rewrite E; left).
  apply list_elem_of_filter in Hf as [Hi Hin]. by repeat split.
Qed.

Lemma initial_consistent :
  cache_consistent initial_router /\ handlers_cached initial_router.
Proof. split; [split|]; constructor. Qed.

Lemma addRoute_cache_consistent (rd : route_data) (st : mvc_router) :
  cache_consistent st -> cache_consistent (addRoute rd st).
Proof.
  intros [Hnd Hdel]. split.
  - rewrite addRoute_classesLoaded.
    destruct (cached st (rd_instance rd)) eqn:E; [by rewrite app_nil_r|].
    rewrite map_app. cbn [map instance]. apply NoDup_app. split; [exact Hnd|].
    split; [|apply NoDup_singleton].
    intros x Hx [->|Hnil]%elem_of_cons; [|by apply elem_of_nil in Hnil].
    apply (cached_None_instance _ _ E). by apply list_elem_of_In.
  - rewrite addRoute_classesLoaded. apply Forall_app. split; [exact Hdel|].
    destruct (cached st (rd_instance rd)) eqn:E; constructor; [|constructor].
    cbn [controller instance]. unfold chosen. by rewrite E.
Qed.

Lemma addRoute_consistent (rd : route_data) (st : mvc_router) :
  cache_consistent st -> handlers_cached st ->
  cache_consistent (addRoute rd st) /\ handlers_cached (addRoute rd st).
Proof.
  intros Hc Hh. split; [by apply addRoute_cache_consistent|].
  unfold handlers_cached. rewrite addRoute_router. apply Forall_app. split.
  - eapply Forall_impl; [exact Hh|]. intros r Hr.
    by apply cached_addRoute_keep.
  - constructor; [|constructor]. cbn [action h_routeData h_controllerClass].
    apply cached_addRoute_same.
Qed.

Lemma addRoutes_consistent (rds : list route_data) (st : mvc_router) :
  cache_consistent st -> handlers_cached st ->
  cache_consistent (addRoutes rds st) /\ handlers_cached (addRoutes rds st).
Proof.
  revert st. induction rds as [|rd rds IH]; intros st Hc Hh; [by split|].
  change (addRoutes (rd :: rds) st) with (addRoutes rds (addRoute rd st)).
  destruct (addRoute_consistent rd st Hc Hh) as [Hc' Hh']. by apply IH.
Qed.

(** Registrations for an instance the cache knows leave the cache as it
    is. *)
Lemma addRoutes_cache_kept (rds : list route_data) (st : mvc_router)
    (i : addr) (w : wrapper) :
  cached st i = Some w ->
  Forall (fun rd => rd_instance rd = i) rds ->
  default [] (classesLoaded (addRoutes rds st)) = default [] (classesLoaded st).
Proof.
  revert st. induction rds as [|rd rds IH]; intros st Hc Hall; [reflexivity|].
  apply Forall_cons in Hall as [Hi Hall].
  change (addRoutes (rd :: rds) st) with (addRoutes rds (addRoute rd st)).
  rewrite (IH _ (cached_addRoute_keep rd st i w Hc) Hall).
  by rewrite addRoute_classesLoaded, Hi, Hc, app_nil_r.
Qed.

(** Registrations for one instance build one wrapper at most. *)
Lemma addRoutes_one_wrapper (rds : list route_data) (st : mvc_router)
    (i : addr) :
  Forall (fun rd => rd_instance rd = i) rds ->
  exists new,
    default [] (classesLoaded (addRoutes rds st))
    = default [] (classesLoaded st) ++ new
    /\ length new <= 1.
Proof.
  intros Hall. destruct rds as [|rd rds].
  - exists []. rewrite app_nil_r. split; [reflexivity|simpl; lia].
  - pose proof Hall as Hall'. apply Forall_cons in Hall' as [Hi Hrest].
    change (addRoutes (rd :: rds) st) with (addRoutes rds (addRoute rd st)).
    rewrite (addRoutes_cache_kept rds (addRoute rd st) i (chosen st rd)).
    + rewrite addRoute_classesLoaded. eexists. split; [reflexivity|].
      destruct (cached st (rd_instance rd)); simpl; lia.
    + rewrite <- Hi. apply cached_addRoute_same.
    + exact Hrest.
Qed.

(** What both variants of [loadImplicitRoutes] come to: the routes of
    the eligible names of a list, all for one instance. *)
Lemma loadImplicitRoutes_loop (cd : controller_data)
    (h h' : gmap addr object) (st st' : mvc_router) :
  loadImplicitRoutes cd h st = Ok (h', st') ->
  exists inst seventh names,
    st' = addRoutes
            (map (fun n => actionRouteData cd h' inst n seventh)
                 (List.filter (eligible h' inst) names)) st.
Proof.
  unfold loadImplicitRoutes.
  destruct (controllerDef cd) as [a|c|]; [| |discriminate].
  - intros [= <- <-]. exists a, VUndefined, (Js.for_in h a).
    apply action_loop.
  - unfold Js.alloc. intros [= <- <-].
    exists (fresh (dom h)), (VString (pathControllerName cd)),
           (List.filter visible (prototype_names c)).
    apply (action_loop (eligible _ _)).
Qed.

(** X13. Loading a controller keeps the cache consistent and every handler on
    the cached wrapper of its instance; the cache keeps its entries, in
    their order, and gains one entry at most. *)
Theorem loading_keeps_cache (cd : controller_data)
    (h h' : gmap addr object) (st st' : mvc_router) :
  cache_consistent st -> handlers_cached st ->
  loadImplicitRoutes cd h st = Ok (h', st') ->
  cache_consistent st' /\ handlers_cached st'
  /\ exists new,
       default [] (classesLoaded st') = default [] (classesLoaded st) ++ new
       /\ length new <= 1.
Proof.
  intros Hc Hh (inst & seventh & names & ->)%loadImplicitRoutes_loop.
  destruct (addRoutes_consistent
              (map (fun n => actionRouteData cd h' inst n seventh)
                   (List.filter (eligible h' inst) names)) st Hc Hh)
    as [Hc' Hh'].
  split; [exact Hc'|]. split; [exact Hh'|].
  apply (addRoutes_one_wrapper _ st inst).
  apply Forall_forall. intros rd Hin.
  apply list_elem_of_In, in_map_iff in Hin as (n & <- & _). reflexivity.
Qed.

Lemma wrapper_owner (st : mvc_router) :
  cache_consistent st -> handlers_cached st ->
  forall r, r ∈ router st ->
    rd_instance (w_routeData (h_controllerClass (action r)))
    = rd_instance (h_routeData (action r)).
Proof.
  intros [_ Hdel] Hh r Hr.
  pose proof (proj1 (Forall_forall _ _) Hh r Hr) as Hc.
  apply cached_Some_entry in Hc as (item & Hin & Hi & Hw).
  pose proof (proj1 (Forall_forall _ _) Hdel item Hin) as Hd.
  by rewrite <- Hw, Hd.
Qed.

Lemma chosen_owner (rd : route_data) (st : mvc_router) :
  cache_consistent st ->
  rd_instance (w_routeData (chosen st rd)) = rd_instance rd.
Proof.
  intros [_ Hdel]. unfold chosen.
  destruct (cached st (rd_instance rd)) as [w|] eqn:E; [|reflexivity].
  apply cached_Some_entry in E as (item & Hin & Hi & Hw).
  pose proof (proj1 (Forall_forall _ _) Hdel item Hin) as Hd.
  cbv beta in Hd. subst w. simpl. by rewrite Hd.
Qed.

(** The handlers a sequence of registrations adds, whatever the router
    held before: each is on the path and verb of its own route data, holds
    the wrapper the cache has for its instance in the end, and that
    wrapper delegates to its instance. *)
Lemma addRoutes_new_handlers (rds : list route_data) (st : mvc_router) :
  cache_consistent st ->
  exists new,
    router (addRoutes rds st) = router st ++ new
    /\ map (fun r => h_routeData (action r)) new = rds
    /\ Forall (fun r =>
                 verb r = rd_method (h_routeData (action r))
                 /\ path r = "/" +:+ stripLeadingSlashes
                                       (rd_path (h_routeData (action r)))
                 /\ cached (addRoutes rds st)
                           (rd_instance (h_routeData (action r)))
                    = Some (h_controllerClass (action r))
                 /\ rd_instance (w_routeData (h_controllerClass (action r)))
                    = rd_instance (h_routeData (action r))) new.
Proof.
  revert st. induction rds as [|rd rds IH]; intros st Hc.
  - exists []. by rewrite app_nil_r.
  - destruct (IH (addRoute rd st) (addRoute_cache_consistent rd st Hc))
      as (new & Hr & Hm & Hall).
    change (addRoutes (rd :: rds) st) with (addRoutes rds (addRoute rd st)).
    eexists (_ :: new). rewrite Hr, addRoute_router, <- app_assoc.
    split; [reflexivity|]. split; [simpl; by rewrite Hm|].
    constructor; [|exact Hall]. cbn [verb path action h_routeData h_controllerClass].
    split; [reflexivity|]. split; [reflexivity|]. split.
    + apply (addRoutes_keep rds (addRoute rd st)), cached_addRoute_same.
    + by apply chosen_owner.
Qed.

(** X14. In a router object whose cache has not been created yet, whatever
    routes the router it registers on already holds: after any sequence of
    calls of [addRoute], the wrapper of every handler these calls
    registered delegates to the instance of the handler's own route, and
    two of these handlers hold the same wrapper exactly when their routes
    are for the same instance. *)
Theorem wrapper_per_instance (st : mvc_router) (rds : list route_data)
    (r1 r2 : route) :
  classesLoaded st = None ->
  let st' := fold_left (fun st rd => addRoute rd st) rds st in
  r1 ∈ drop (length (router st)) (router st') ->
  r2 ∈ drop (length (router st)) (router st') ->
  rd_instance (w_routeData (h_controllerClass (action r1)))
  = rd_instance (h_routeData (action r1))
  /\ (h_controllerClass (action r1) = h_controllerClass (action r2)
      <-> rd_instance (h_routeData (action r1))
          = rd_instance (h_routeData (action r2))).
Proof.
  intros Hnone st' H1 H2.
  assert (cache_consistent st) as Hc.
  { unfold cache_consistent. rewrite Hnone. split; constructor. }
  destruct (addRoutes_new_handlers rds st Hc) as (new & Hr & _ & Hall).
  unfold st' in H1, H2. fold (addRoutes rds st) in H1, H2.
  rewrite Hr, drop_app_length in H1, H2.
  destruct (proj1 (Forall_forall _ _) Hall r1 H1) as (_ & _ & Hc1 & Ho1).
  destruct (proj1 (Forall_forall _ _) Hall r2 H2) as (_ & _ & Hc2 & Ho2).
  split; [exact Ho1|]. split.
  - intros Heq. by rewrite <- Ho1, <- Ho2, Heq.
  - intros Heq. rewrite Heq, Hc2 in Hc1. by injection Hc1.
Qed.

(** X15. Every route a controller is loaded with is dispatched to the function
    it was registered for: the member of the route's instance under the
    raw action name is a function, and, unless that name is one of the
    own members of the dispatch context, the handler calls this function,
    on a new context, with the captured values of the parameter names
    read off the function's text. *)
Theorem loaded_route_dispatch {F : Type} (cd : controller_data)
    (h h' : gmap addr object) (st st' : mvc_router) (r : route)
    (req : request F) (res next : value) :
  cache_consistent st -> handlers_cached st ->
  loadImplicitRoutes cd h st = Ok (h', st') ->
  r ∈ drop (length (router st)) (router st') ->
  let rd := h_routeData (action r) in
  let f := Js.get h' (VRef (rd_instance rd)) (rd_actionName rd) in
  Js.is_function h' f = true
  /\ (rd_actionName rd ∉ context_members ->
      actionFn (action r) h' req res next
      = Ok {| callee := InstanceMember f;
              this := newController (action r) req res next;
              arguments :=
                map (fun p => default VUndefined (req_params req !! p))
                    (default [] (getParameterNames h' f)) |}).
Proof.
  intros Hc Hh Hload Hin rd f.
  pose proof Hload as (inst & seventh & names & ->)%loadImplicitRoutes_loop.
  destruct (addRoutes_consistent
              (map (fun n => actionRouteData cd h' inst n seventh)
                   (List.filter (eligible h' inst) names)) st Hc Hh)
    as [Hc' Hh'].
  destruct (addRoutes_router
              (map (fun n => actionRouteData cd h' inst n seventh)
                   (List.filter (eligible h' inst) names)) st)
    as (new & Hr & Hm & _).
  rewrite Hr, drop_app_length in Hin.
  assert (exists n, rd = actionRouteData cd h' inst n seventh
                    /\ eligible h' inst n = true) as (n & Hrd & He).
  { pose proof Hin as Hin'. apply list_elem_of_In in Hin'.
    apply (in_map (fun r => h_routeData (action r))) in Hin'.
    rewrite Hm in Hin'. apply in_map_iff in Hin' as (n & Heq & Hn).
    apply filter_In in Hn as [_ He]. by exists n. }
  assert (Js.is_function h' f = true) as Hf.
  { unfold f. rewrite Hrd. cbn [actionRouteData rd_instance rd_actionName].
    unfold eligible in He. by apply andb_prop in He as [He _]. }
  split; [exact Hf|]. intros Hname.
  assert (r ∈ router
            (addRoutes (map (fun n => actionRouteData cd h' inst n seventh)
                            (List.filter (eligible h' inst) names)) st)) as Hall.
  { rewrite Hr. apply elem_of_app. by right. }
  pose proof (wrapper_owner _ Hc' Hh' r Hall) as Hown.
  rewrite (actionFn_instance (action r) h' req res next Hname Hown Hf).
  unfold actionArgs. fold rd. f_equal. f_equal. f_equal.
  rewrite Hrd at 1. cbn [actionRouteData rd_args]. unfold f. by rewrite Hrd.
Qed.

End CacheInvariant.

(** ** The class-like variant and the names a handler cannot reach *)

Section Variants.
Import JsString Pattern Synth Spec Shape.

Lemma filter_filter_bool {A : Type} (p q : A -> bool) (l : list A) :
  List.filter p (List.filter q l) = List.filter (fun x => q x && p x) l.
Proof.
  induction l as [|x l IH]; [reflexivity|]. cbn [List.filter].
  destruct (q x); cbn [List.filter andb]; by rewrite IH.
Qed.

(** X12. When the load of a class-like controller returns, all the routes
    it registered are for one instance, the object [new controller()]
    evaluated to; they are, in the order of the prototype's own names,
    those of the names other than [constructor] that do not start with
    an underscore and whose member of the instance is a function; and
    every such route carries the controller name of the path as its
    seventh argument. *)
Theorem class_actions (cd : controller_data) (c : class_def)
    (h h' : gmap addr object) (st st' : mvc_router) :
  controllerDef cd = ClassDef c ->
  loadImplicitRoutes cd h st = Ok (h', st') ->
  exists inst new,
    h' !! inst = Some (construct c)
    /\ router st' = router st ++ new
    /\ action_names new
       = List.filter
           (fun k => negb (String.eqb k "constructor")
                     && negb (String.eqb (charAt0 k) "_")
                     && Js.is_function h' (Js.get h' (VRef inst) k))
           (prototype_names c)
    /\ Forall (fun r =>
                 rd_instance (h_routeData (action r)) = inst
                 /\ rd_controllerName (h_routeData (action r))
                    = VString (pathControllerName cd)) new.
Proof.
  intros Hdef. unfold loadImplicitRoutes. rewrite Hdef. unfold Js.alloc.
  intros [= <- <-].
  set (inst := fresh (dom h)). set (h' := <[inst := construct c]> h).
  destruct (action_loop_routes cd h' inst (VString (pathControllerName cd))
              (List.filter visible (prototype_names c)) st)
    as (new & Hr & Hm & Hn).
  exists inst, new. split; [apply lookup_insert_eq|]. split; [exact Hr|]. split.
  - rewrite Hn, filter_filter_bool. apply filter_ext. intros k.
    unfold visible, eligible.
    destruct (String.eqb k "constructor"), (String.eqb (charAt0 k) "_"),
      (Js.is_function h' (Js.get h' (VRef inst) k)); reflexivity.
  - apply Forall_forall. intros r Hin.
    apply list_elem_of_In in Hin.
    apply (in_map (fun r => h_routeData (action r))) in Hin.
    rewrite Hm in Hin. apply in_map_iff in Hin as (n & Heq & _).
    by rewrite <- Heq.
Qed.

(** X16. An action named after a member of the dispatch context is never
    called by its handler: under the names [req] and [res] the handler
    throws, under [next], [render] and [constructor] it calls the
    context's own member, whatever the controller instance holds. *)
Theorem shadowed_action_not_called {F : Type} (hd : handler)
    (h : gmap addr object) (req : request F) (res next : value) :
  rd_actionName (h_routeData hd) ∈ context_members ->
  match actionFn hd h req res next with
  | Ok inv =>
      (forall v, callee inv <> InstanceMember v)
      /\ this inv = newController hd req res next
      /\ rd_actionName (h_routeData hd) ∈ ["next"; "render"; "constructor"]
  | Throw _ => rd_actionName (h_routeData hd) ∈ ["req"; "res"]
  end.
Proof.
  unfold context_members, actionFn. intros Hin.
  repeat (apply elem_of_cons in Hin as [Heq|Hin]);
    [ .. | by apply elem_of_nil in Hin ];
    rewrite Heq; cbn; repeat split; try discriminate;
    apply list_elem_of_In; simpl; tauto.
Qed.

(** X5. White space around a raw action name changes neither the verb nor
    the bare name it resolves to. *)
Theorem resolveAction_padding (lead name trail : string) :
  all is_space lead = true -> all is_space trail = true ->
  resolveAction (lead +:+ name +:+ trail) = resolveAction name.
Proof.
  intros Hl Ht.
  assert (trim (lead +:+ name +:+ trail) = trim name) as Htrim.
  { unfold trim, trimStart. rewrite dropWhile_all by exact Hl.
    induction name as [|c n IH].
    - change (EmptyString +:+ trail) with trail.
      by rewrite <- (append_empty_r trail), dropWhile_all.
    - rewrite append_cons. cbn [dropWhile].
      destruct (is_space c); [exact IH|].
      rewrite <- append_cons. by apply trimEnd_space. }
  unfold resolveAction. by rewrite Htrim.
Qed.

Lemma stripLeadingSlashes_id (s : string) :
  strip_prefix "/" s = None -> stripLeadingSlashes s = s.
Proof.
  destruct s as [|c s]; [reflexivity|]. unfold stripLeadingSlashes.
  cbn [strip_prefix dropWhile]. by destruct (Ascii.eqb "/" c).
Qed.

(** X9. The controller segment of a path. When neither the controller name
    nor the path name of an action starts with a slash, the route is
    registered at a slash and the path name for the controller named
    [default] and for one whose name is empty, and at a slash, the
    controller name and, unless the path name is empty, a slash and the
    path name for any other. *)
Theorem controller_segment (cd : controller_data) (h : gmap addr object)
    (inst : addr) (actionName : string) (seventh : value) (st : mvc_router) :
  let rd := actionRouteData cd h inst actionName seventh in
  let p := String.concat "/"
             (segments (snd (resolveAction actionName))
                       (default [] (rd_args rd))) in
  strip_prefix "/" (controllerName cd) = None ->
  strip_prefix "/" p = None ->
  exists w,
    router (addRoute rd st)
    = router st
      ++ [ {| verb := fst (resolveAction actionName);
              path := if String.eqb (controllerName cd) "default"
                         || negb (nonempty (controllerName cd))
                      then "/" +:+ p
                      else "/" +:+ controllerName cd
                           +:+ (if nonempty p then "/" +:+ p else "");
              action := {| h_routeData := rd; h_controllerClass := w |} |} ].
Proof.
  intros rd p Hname Hp. exists (chosen st rd). unfold rd.
  rewrite addRoute_action. fold rd. fold p. do 3 f_equal.
  unfold routePath, pathControllerName.
  assert (stripLeadingSlashes (if nonempty p then "/" +:+ p else "") = p)
    as Hroot.
  { destruct p as [|c q] eqn:E; [reflexivity|]. cbn [nonempty].
    change (stripLeadingSlashes ("/" +:+ String c q))
      with (stripLeadingSlashes (String c q)).
    by apply stripLeadingSlashes_id. }
  destruct (String.eqb (controllerName cd) "default"); cbn [orb].
  - change (EmptyString +:+ ?x) with x. by rewrite Hroot.
  - destruct (controllerName cd) as [|c n] eqn:E; cbn [nonempty negb].
    + change (EmptyString +:+ ?x) with x. by rewrite Hroot.
    + rewrite stripLeadingSlashes_id; [reflexivity|].
      rewrite append_cons. cbn [strip_prefix] in *.
      by destruct (Ascii.eqb "/" c).
Qed.

Lemma explicit_token_scan (tok rest : string) :
  tok ∈ explicit_tokens ->
  first_token explicit_tokens (dropWhile is_space (tok +:+ rest))
  = Some (tok, rest)
  /\ nonempty tok = true.
Proof.
  intros Hin. unfold explicit_tokens in Hin.
  repeat (apply elem_of_cons in Hin as [->|Hin]);
    [ .. | by apply elem_of_nil in Hin ]; split; reflexivity.
Qed.

(** X4. With the explicit pattern, a name that starts with one of the verbs
    [GET], [POST], [PUT], [DELETE], [PATCH] in braces, white space allowed
    on either side of the verb, gives that verb in lower case. *)
Theorem getMethod_explicit (sp1 sp2 tok rest : string) :
  all is_space sp1 = true -> all is_space sp2 = true ->
  tok ∈ explicit_tokens ->
  getMethod ("{" +:+ sp1 +:+ tok +:+ sp2 +:+ "}" +:+ rest) true
  = toLowerCase tok.
Proof.
  intros H1 H2 Hin. unfold getMethod, explicitMethodPattern.
  destruct (explicit_token_scan tok (sp2 +:+ "}" +:+ rest) Hin) as [Hscan Hne].
  change ("{" +:+ sp1 +:+ tok +:+ sp2 +:+ "}" +:+ rest)
    with (String "{" (sp1 +:+ tok +:+ sp2 +:+ "}" +:+ rest)).
  cbn [strip_prefix]. rewrite Ascii.eqb_refl, dropWhile_all by exact H1.
  rewrite Hscan, dropWhile_all by exact H2.
  change (dropWhile is_space ("}" +:+ rest)) with (String "}" rest).
  cbn [strip_prefix]. by rewrite Ascii.eqb_refl, Hne.
Qed.

End Variants.

(** ** The render helper: what it leaves alone, and when it throws *)

Section RenderEdges.
Import JsString Synth Spec Shape.
Context {F : Type}.

(** X19. A [render] call whose data argument is truthy and not an object
    throws: the first default it fills in is an assignment to a member of
    a primitive value. *)
Theorem render_primitive_data (ctx : dispatch_context F) (args : list value)
    (s : store F) :
  Js.truthy (data_argument args) = true ->
  is_object (data_argument args) = false ->
  render ctx args s = Throw TypeError.
Proof.
  intros Ht Ho. unfold render. unfold bindM at 1. unfold allocM, Js.alloc.
  cbn [heap flash_state]. rewrite render_arguments. unfold Js.or. rewrite Ht.
  destruct (data_argument args); try discriminate; reflexivity.
Qed.

(** X18. What a [render] call that has an object for its data leaves alone: it
    returns, the objects of the store other than the data object are as
    before, the store has one new object at most, and on the data object
    only the members [controllerName], [actionName], [session],
    [success], [error] and [info] may have changed. *)
Theorem render_frame (ctx : dispatch_context F) (args : list value)
    (s : store F) (a : addr) :
  resolves_data (heap s) args a ->
  req_flash (ctx_req ctx) <> FlashNotCallable ->
  exists rc s',
    render ctx args s = Ok (rc, s')
    /\ (forall b, b ∈ dom (heap s) -> b <> a ->
          heap s' !! b = heap s !! b)
    /\ dom (heap s') = {[ fresh (dom (heap s)) ]} ∪ dom (heap s)
    /\ forall k, k ∉ render_members ->
         Js.get (heap s') (VRef a) k = Js.get (heap s) (VRef a) k.
Proof.
  intros Hres Hflash.
  destruct (render_eval ctx args s a Hres) as (o & Hold & Hr).
  destruct (flashed (ctx_req ctx) (flash_state s) (filled ctx o))
    as [[o' f']|] eqn:Hfl.
  2:{ exfalso. unfold flashed in Hfl.
      destruct (req_flash (ctx_req ctx)); try discriminate; [|done].
      by destruct (flash_reads read (flash_state s)) as [[[? ?] ?] ?]. }
  eexists _, _. split; [exact Hr|]. cbn [heap]. split; [|split].
  - intros b Hb Hne. rewrite lookup_insert_ne by done.
    apply lookup_insert_ne. intros <-. by apply (is_fresh (dom (heap s))).
  - rewrite !dom_insert_L.
    apply set_eq. intros x. rewrite !elem_of_union, !elem_of_singleton.
    destruct Hres as [[_ ->]|[_ Ha]]; [tauto|].
    split; [intros [->|Hx]; [by right|exact Hx]|by right].
  - intros k Hk. rewrite (get_lookup _ a _ k (lookup_insert_eq _ _ _)).
    rewrite (flashed_get _ _ _ _ _ Hfl).
    + rewrite <- Hold. apply (proj2 (proj2 (proj2 (filled_get ctx o)))).
      intros Hin. apply Hk. apply list_elem_of_In. apply list_elem_of_In in Hin.
      simpl in *. tauto.
    + intros Hin. apply Hk. apply list_elem_of_In. apply list_elem_of_In in Hin.
      simpl in *. tauto.
Qed.

(** X20. In the flat-actions variant [addRoute] is called with six arguments,
    so the wrapper built for the definition object holds no controller
    name: a [render] call on the context of such a route leaves a truthy
    member [controllerName] of the data object as it is and sets any
    other to [undefined]. *)
Theorem flat_render_controllerName (cd : controller_data) (i : addr)
    (h h1 : gmap addr object) (st st1 : mvc_router) (r : route)
    (req : request F) (res next : value) (args : list value)
    (s : store F) (a : addr) :
  controllerDef cd = ObjectDef i ->
  cached st i = None ->
  loadImplicitRoutes cd h st = Ok (h1, st1) ->
  r ∈ drop (length (router st)) (router st1) ->
  req_flash req <> FlashNotCallable ->
  resolves_data (heap s) args a ->
  exists rc s',
    render (newController (action r) req res next) args s = Ok (rc, s')
    /\ rc_data rc = VRef a
    /\ Js.get (heap s') (VRef a) "controllerName"
       = if Js.truthy (Js.get (heap s) (VRef a) "controllerName")
         then Js.get (heap s) (VRef a) "controllerName"
         else VUndefined.
Proof.
  intros Hdef Hc Hload Hin Hflash Hres.
  set (ctx := newController (action r) req res next).
  assert (rd_controllerName (w_routeData (ctx_class ctx)) = VUndefined) as Hcn.
  { unfold loadImplicitRoutes in Hload. rewrite Hdef in Hload.
    injection Hload as <- <-. unfold setObjectActions in Hin.
    rewrite (action_loop (eligible h i)
               (fun n => actionRouteData cd h i n VUndefined)) in Hin.
    destruct (addRoutes_fresh_instance
                (map (fun n => actionRouteData cd h i n VUndefined)
                     (List.filter (eligible h i) (Js.for_in h i)))
                st i VUndefined Hc) as (new & Hr & _ & Hnew).
    - apply Forall_forall. intros rd Hrd.
      apply list_elem_of_In, in_map_iff in Hrd as (n & <- & _). by split.
    - rewrite Hr, drop_app_length in Hin. exact (Hnew r Hin). }
  destruct (render_eval ctx args s a Hres) as (o & Hold & Hr).
  destruct (flashed (ctx_req ctx) (flash_state s) (filled ctx o))
    as [[o' f']|] eqn:Hfl.
  2:{ exfalso. unfold flashed in Hfl. cbn [ctx ctx_req newController] in Hfl.
      destruct (req_flash req); try discriminate; [|done].
      by destruct (flash_reads read (flash_state s)) as [[[? ?] ?] ?]. }
  eexists _, _. split; [exact Hr|]. split; [reflexivity|]. cbn [heap].
  rewrite (get_lookup _ a _ _ (lookup_insert_eq _ _ _)).
  rewrite (flashed_get _ _ _ _ _ Hfl).
  - rewrite (proj1 (filled_get ctx o)), Hcn. by rewrite <- Hold.
  - intros Hk. apply list_elem_of_In in Hk. simpl in Hk.
    destruct Hk as [Hk|[Hk|[Hk|[]]]]; discriminate Hk.
Qed.

End RenderEdges.

(** ** Parameters, from the function text to the call *)

Section DeclaredParameters.
Import JsString Pattern Synth Spec Shape.

Lemma split_parameter_list (skip : bool) (first : string)
    (more : list (string * string * string)) :
  plain_parameters first more ->
  splitCommaAux skip [] [] (parameter_list first more) = declared first more.
Proof.
  intros [Hf Hm]. revert skip first Hf.
  induction Hm as [|[[sp1 sp2] next] more (H1 & H2 & Hn) Hm IH];
    intros skip first Hf; cbn [fst snd] in *.
  - cbn [parameter_list]. rewrite <- (append_empty_r first) at 1.
    rewrite split_identifier by done. cbn [splitCommaAux app].
    unfold declared. cbn [map]. by rewrite rev_rev_string.
  - cbn [parameter_list]. rewrite split_identifier by done.
    rewrite split_separator by by apply blank_space.
    rewrite rev_rev_string. unfold declared. cbn [map snd]. f_equal.
    apply (IH true next Hn).
Qed.

Lemma parameter_list_shape (first : string)
    (more : list (string * string * string)) :
  plain_parameters first more ->
  (exists c r, parameter_list first more = String c r /\ is_word c = true)
  /\ (exists pre w, parameter_list first more = pre +:+ w
                    /\ identifier w = true).
Proof.
  intros [Hf Hm]. split.
  - pose proof Hf as Hf'. unfold identifier in Hf'.
    apply andb_prop in Hf' as [Hne Hw].
    destruct first as [|c r]; [discriminate|]. cbn [all] in Hw.
    apply andb_prop in Hw as [Hc _].
    destruct more as [|[[sp1 sp2] next] more]; cbn [parameter_list].
    + by exists c, r.
    + rewrite append_cons. by eexists c, _.
  - revert first Hf.
    induction Hm as [|[[sp1 sp2] next] more (H1 & H2 & Hn) Hm IH];
      intros first Hf; cbn [fst snd] in *; cbn [parameter_list].
    + by exists EmptyString, first.
    + destruct (IH next Hn) as (pre & w & Heq & Hw).
      exists (first +:+ sp1 +:+ "," +:+ sp2 +:+ pre), w. split; [|exact Hw].
      by rewrite Heq, !append_assoc.
Qed.

Lemma parameter_list_all (p : ascii -> bool) (first : string)
    (more : list (string * string * string)) :
  (forall c, is_word c = true -> p c = true) ->
  (forall c, is_space c && negb (is_line_terminator c) = true -> p c = true) ->
  p ","%char = true ->
  plain_parameters first more ->
  all p (parameter_list first more) = true.
Proof.
  intros Hword Hblank Hcomma [Hf Hm].
  assert (forall w, identifier w = true -> all p w = true) as Hid.
  { intros w [_ Hw]%andb_prop. revert Hw. by apply all_impl. }
  assert (forall s, blank s = true -> all p s = true) as Hbl.
  { intros s. by apply all_impl. }
  revert first Hf.
  induction Hm as [|[[sp1 sp2] next] more (H1 & H2 & Hn) Hm IH];
    intros first Hf; cbn [fst snd] in *; cbn [parameter_list].
  - by apply Hid.
  - apply all_append_true; [by apply Hid|].
    apply all_append_true; [by apply Hbl|].
    change ("," +:+ sp2 +:+ parameter_list next more)
      with (String "," (sp2 +:+ parameter_list next more)).
    cbn [all]. rewrite Hcomma. cbn [andb].
    apply all_append_true; [by apply Hbl|by apply IH].
Qed.

(** The names read off a function text whose parameter list is a list of
    identifiers separated by commas, on one line. *)
Lemma parameterNames_plain (head lead first trail rest : string)
    (more : list (string * string * string)) :
  signature_head head = true ->
  blank lead = true -> blank trail = true ->
  plain_parameters first more ->
  parameterNames
    (head +:+ "(" +:+ (lead +:+ parameter_list first more +:+ trail)
          +:+ ")" +:+ rest)
  = Some (declared first more).
Proof.
  intros Hhead Hl Ht Hplain.
  set (good := fun c => negb (Ascii.eqb c ")") && negb (is_line_terminator c)).
  assert (forall s, blank s = true -> all good s = true) as Hblank.
  { intros s. apply all_impl. intros c [Hc Hn]%andb_prop. unfold good.
    destruct (space_char c Hc) as (_ & _ & _ & ->). by rewrite Hn. }
  assert (all good (lead +:+ parameter_list first more +:+ trail) = true)
    as Hgood.
  { apply all_append_true; [by apply Hblank|].
    apply all_append_true; [|by apply Hblank].
    apply parameter_list_all; try done.
    - intros c Hc. unfold good.
      by destruct (word_char c Hc) as (_ & _ & _ & -> & ->).
    - intros c [Hc Hn]%andb_prop. unfold good.
      destruct (space_char c Hc) as (_ & _ & _ & ->). by rewrite Hn. }
  destruct (parameter_list_shape first more Hplain) as [Hfirst Hlast].
  unfold parameterNames.
  rewrite signaturePattern_shape, Hhead.
  - rewrite (all_impl good _ _ (fun c H => proj2 (andb_prop _ _ H)) Hgood).
    cbn [andb].
    assert (nonempty (lead +:+ parameter_list first more +:+ trail) = true)
      as ->.
    { apply nonempty_append_r. destruct Hfirst as (c & r & -> & _).
      reflexivity. }
    rewrite trim_padded; try done; try by apply blank_space.
    unfold splitComma. f_equal. by apply split_parameter_list.
  - by apply signature_head_no_paren.
  - revert Hgood. apply all_impl. by intros c [H _]%andb_prop.
Qed.

Lemma toString_function (h : gmap addr object) (v : value) (src : string) :
  Js.toString h v = Some src -> Js.is_function h v = true.
Proof.
  destruct v as [| | | | | |a]; try discriminate. unfold Js.toString, Js.is_function.
  destruct (h !! a) as [o|]; [|discriminate]. cbn. intros ->.
  by apply bool_decide_eq_true.
Qed.

Lemma nonempty_concat_segments (bare : string) (names : list string) :
  names <> [] ->
  nonempty (String.concat "/" (segments bare names)) = true.
Proof.
  intros Hne. destruct names as [|n ns]; [done|]. unfold segments.
  destruct bare as [|c b]; cbn [nonempty app map].
  - destruct ns; reflexivity.
  - reflexivity.
Qed.

(** Both action loops call [addRoute] with the same first six
    arguments. For a name the loop runs over whose member of the instance
    is a function and which does not start with an underscore, the loop
    registers a route, with the verb and path of its route data; its
    handler calls the member the dispatch context has under that name, if
    it is callable, with the captured values of the parameter names read
    at registration; and the context delegates to the instance. *)
Lemma action_loop_registers {F : Type} (cd : controller_data)
    (h : gmap addr object) (inst : addr) (seventh : value)
    (names : list string) (st : mvc_router) (n : string) :
  cache_consistent st ->
  n ∈ names -> eligible h inst n = true ->
  let args := getParameterNames h (Js.get h (VRef inst) n) in
  let captured (req : request F) :=
    map (fun p => default VUndefined (req_params req !! p)) (default [] args) in
  exists r,
    r ∈ drop (length (router st))
             (router (fold_left
                        (fun st n =>
                           if eligible h inst n
                           then addRoute (actionRouteData cd h inst n seventh) st
                           else st) names st))
    /\ rd_actionName (h_routeData (action r)) = n
    /\ rd_args (h_routeData (action r)) = args
    /\ verb r = fst (resolveAction n)
    /\ path r = "/" +:+ stripLeadingSlashes
                  (routePath cd (appendParameters (snd (resolveAction n)) args))
    /\ forall (req : request F) (res next : value) (h' : gmap addr object),
         (actionFn (action r) h' req res next
          = if callable h' (lookup_member h' (newController (action r) req res next) n)
            then Ok {| callee := lookup_member h'
                                   (newController (action r) req res next) n;
                       this := newController (action r) req res next;
                       arguments := captured req |}
            else Throw TypeError)
         /\ (n ∉ context_members ->
             Js.is_function h' (Js.get h' (VRef inst) n) = true ->
             actionFn (action r) h' req res next
             = Ok {| callee := InstanceMember (Js.get h' (VRef inst) n);
                     this := newController (action r) req res next;
                     arguments := captured req |}).
Proof.
  intros Hc Hin He args captured.
  rewrite (action_loop (eligible h inst)
             (fun n => actionRouteData cd h inst n seventh)).
  destruct (addRoutes_new_handlers
              (map (fun n => actionRouteData cd h inst n seventh)
                   (List.filter (eligible h inst) names)) st Hc)
    as (new & Hr & Hm & Hall).
  assert (In (actionRouteData cd h inst n seventh)
             (map (fun r => h_routeData (action r)) new)) as Hrd.
  { rewrite Hm.
    apply (in_map (fun n => actionRouteData cd h inst n seventh)).
    apply filter_In. split; [|exact He]. by apply list_elem_of_In. }
  apply in_map_iff in Hrd as (r & Hrd & Hnew). apply list_elem_of_In in Hnew.
  destruct (proj1 (Forall_forall _ _) Hall r Hnew) as (Hv & Hp & _ & Hown).
  exists r. rewrite Hr, drop_app_length. split; [exact Hnew|].
  rewrite Hv, Hp, Hrd. cbn [actionRouteData rd_actionName rd_args rd_method rd_path].
  repeat (split; [reflexivity|]).
  intros req res next h'. split.
  - unfold actionFn, actionArgs. rewrite Hrd.
    cbn [actionRouteData rd_actionName rd_args]. reflexivity.
  - intros Hname Hf.
    rewrite (actionFn_instance (action r) h' req res next).
    + unfold actionArgs. rewrite Hrd.
      cbn [actionRouteData rd_actionName rd_args rd_instance]. reflexivity.
    + by rewrite Hrd.
    + rewrite Hown, Hrd. reflexivity.
    + rewrite Hrd. exact Hf.
Qed.

Section Registered.
Context {F : Type}.

(** C10. An action whose function text the signature pattern does not
    match: the parameter extractor returns the absent result; each of the
    two action loops, when it runs over the action's name, still
    registers a route for it, at the controller segment and the bare
    action name with no capture segment; and whatever call the handler of
    that route makes has no argument: it is made on the member the
    dispatch context has under the action's name, which is the
    instance's function unless the name is one of the context's own. *)
Theorem unparsed_signature_total (cd : controller_data)
    (h : gmap addr object) (inst allActions : addr) (st : mvc_router)
    (actionName src : string) :
  cache_consistent st ->
  String.eqb (charAt0 actionName) "_" = false ->
  Js.toString h (Js.get h (VRef inst) actionName) = Some src ->
  signaturePattern src = None ->
  let bare := snd (resolveAction actionName) in
  let routed (r : route) :=
    rd_actionName (h_routeData (action r)) = actionName
    /\ rd_args (h_routeData (action r)) = None
    /\ verb r = fst (resolveAction actionName)
    /\ path r = "/" +:+ stripLeadingSlashes
                  ((if String.eqb (controllerName cd) "default"
                    then EmptyString else controllerName cd)
                   +:+ (if nonempty bare then "/" +:+ bare else EmptyString))
    /\ forall (req : request F) (res next : value) (h' : gmap addr object),
         (actionFn (action r) h' req res next
          = if callable h' (lookup_member h'
                              (newController (action r) req res next) actionName)
            then Ok {| callee := lookup_member h'
                                   (newController (action r) req res next)
                                   actionName;
                       this := newController (action r) req res next;
                       arguments := [] |}
            else Throw TypeError)
         /\ (actionName ∉ context_members ->
             Js.is_function h' (Js.get h' (VRef inst) actionName) = true ->
             actionFn (action r) h' req res next
             = Ok {| callee := InstanceMember
                                 (Js.get h' (VRef inst) actionName);
                     this := newController (action r) req res next;
                     arguments := [] |}) in
  getParameterNames h (Js.get h (VRef inst) actionName) = None
  /\ (actionName ∈ Js.for_in h allActions ->
      exists r,
        r ∈ drop (length (router st))
                 (router (setObjectActions cd inst allActions h st))
        /\ routed r)
  /\ (forall names, actionName ∈ names ->
      exists r,
        r ∈ drop (length (router st))
                 (router (setFunctionActions cd inst names h st))
        /\ routed r).
Proof.
  intros Hc Hunder Hsrc Hpat bare routed.
  assert (getParameterNames h (Js.get h (VRef inst) actionName) = None) as Hnone.
  { unfold getParameterNames, parameterNames. by rewrite Hsrc, Hpat. }
  assert (eligible h inst actionName = true) as He.
  { unfold eligible. by rewrite (toString_function _ _ _ Hsrc), Hunder. }
  assert (forall seventh names, actionName ∈ names ->
            exists r,
              r ∈ drop (length (router st))
                       (router (fold_left
                          (fun st n =>
                             if eligible h inst n
                             then addRoute
                                    (actionRouteData cd h inst n seventh) st
                             else st) names st))
              /\ routed r) as Hloop.
  { intros seventh names Hin.
    destruct (action_loop_registers (F := F) cd h inst seventh names st
                actionName Hc Hin He)
      as (r & Hr & Hn & Ha & Hv & Hp & Hcall).
    exists r. split; [exact Hr|]. unfold routed.
    rewrite Hnone in Ha, Hp, Hcall.
    split; [exact Hn|]. split; [exact Ha|]. split; [exact Hv|].
    split; [exact Hp|]. exact Hcall. }
  split; [exact Hnone|]. split.
  - intros Hin. exact (Hloop VUndefined _ Hin).
  - intros names Hin. exact (Hloop _ names Hin).
Qed.

(** X21. The symmetry of path and arguments, where the extractor reads the
    declaration. An action whose function text is a head the signature
    pattern accepts and, in parentheses on one line, a list of
    identifiers separated by commas: each of the two action loops, when
    it runs over the action's name, registers a route whose path is the
    controller segment, the bare action name unless empty, and one
    capture segment per declared name, in the order of the declaration;
    and the call its handler makes has for arguments the captured values
    of these names, in that order: it is made on the member the dispatch
    context has under the action's name, which is the instance's function
    unless the name is one of the context's own. *)
Theorem declared_parameters_routed (cd : controller_data)
    (h : gmap addr object) (inst allActions : addr) (st : mvc_router)
    (actionName head lead first trail rest : string)
    (more : list (string * string * string)) :
  cache_consistent st ->
  String.eqb (charAt0 actionName) "_" = false ->
  Js.toString h (Js.get h (VRef inst) actionName)
  = Some (head +:+ "(" +:+ (lead +:+ parameter_list first more +:+ trail)
               +:+ ")" +:+ rest) ->
  signature_head head = true ->
  blank lead = true -> blank trail = true ->
  plain_parameters first more ->
  let bare := snd (resolveAction actionName) in
  let names := declared first more in
  let captured (req : request F) :=
    map (fun p => default VUndefined (req_params req !! p)) names in
  let routed (r : route) :=
    rd_actionName (h_routeData (action r)) = actionName
    /\ verb r = fst (resolveAction actionName)
    /\ path r = "/" +:+ stripLeadingSlashes
                  ((if String.eqb (controllerName cd) "default"
                    then EmptyString else controllerName cd)
                   +:+ "/"
                   +:+ String.concat "/"
                         ((if nonempty bare then [bare] else [])
                          ++ map (fun p => ":" +:+ p) names))
    /\ forall (req : request F) (res next : value) (h' : gmap addr object),
         (actionFn (action r) h' req res next
          = if callable h' (lookup_member h'
                              (newController (action r) req res next) actionName)
            then Ok {| callee := lookup_member h'
                                   (newController (action r) req res next)
                                   actionName;
                       this := newController (action r) req res next;
                       arguments := captured req |}
            else Throw TypeError)
         /\ (actionName ∉ context_members ->
             Js.is_function h' (Js.get h' (VRef inst) actionName) = true ->
             actionFn (action r) h' req res next
             = Ok {| callee := InstanceMember
                                 (Js.get h' (VRef inst) actionName);
                     this := newController (action r) req res next;
                     arguments := captured req |}) in
  (actionName ∈ Js.for_in h allActions ->
   exists r,
     r ∈ drop (length (router st))
              (router (setObjectActions cd inst allActions h st))
     /\ routed r)
  /\ (forall allNames, actionName ∈ allNames ->
      exists r,
        r ∈ drop (length (router st))
                 (router (setFunctionActions cd inst allNames h st))
        /\ routed r).
Proof.
  intros Hc Hunder Hsrc Hhead Hl Ht Hplain bare names captured routed.
  assert (getParameterNames h (Js.get h (VRef inst) actionName) = Some names)
    as Hnames.
  { unfold getParameterNames. rewrite Hsrc. by apply parameterNames_plain. }
  assert (eligible h inst actionName = true) as He.
  { unfold eligible. by rewrite (toString_function _ _ _ Hsrc), Hunder. }
  assert (routePath cd (appendParameters bare (Some names))
          = (if String.eqb (controllerName cd) "default"
             then EmptyString else controllerName cd)
            +:+ "/"
            +:+ String.concat "/"
                  ((if nonempty bare then [bare] else [])
                   ++ map (fun p => ":" +:+ p) names)) as Hpath.
  { rewrite appendParameters_segments. cbn [default]. unfold routePath.
    rewrite nonempty_concat_segments by done. reflexivity. }
  assert (forall seventh allNames, actionName ∈ allNames ->
            exists r,
              r ∈ drop (length (router st))
                       (router (fold_left
                          (fun st n =>
                             if eligible h inst n
                             then addRoute
                                    (actionRouteData cd h inst n seventh) st
                             else st) allNames st))
              /\ routed r) as Hloop.
  { intros seventh allNames Hin.
    destruct (action_loop_registers (F := F) cd h inst seventh allNames st
                actionName Hc Hin He)
      as (r & Hr & Hn & _ & Hv & Hp & Hcall).
    exists r. split; [exact Hr|]. unfold routed.
    rewrite Hnames in Hp, Hcall. fold bare in Hp. rewrite Hpath in Hp.
    split; [exact Hn|]. split; [exact Hv|]. split; [exact Hp|]. exact Hcall. }
  split.
  - intros Hin. exact (Hloop VUndefined _ Hin).
  - intros allNames Hin. exact (Hloop _ allNames Hin).
Qed.

End Registered.

End DeclaredParameters.

(** ** Function texts the signature pattern does not read *)

Section Unread.
Import JsString Pattern Synth Spec Shape Readme Cases.

(** C7. Two actions that declare parameters the extractor does not
    read. The action [report] is an [async] function with one declared
    parameter, [id]: its text does not match the signature pattern, its
    route is [GET /home/report], with no capture segment, and its handler
    calls it with no argument, whatever the request captured. The action
    [search] declares [name] and [limit], the second with a default
    value: the names read are [name] and the text [limit = 10], its route
    is [GET /home/search/:name/:limit = 10], and its handler passes
    [undefined] for the second argument where the request holds a value
    for [limit]. *)
Lemma declared_parameters_unread :
  (let st := snd (loaded home_cd store2) in
   let r := nth_route st 0 in
   loadImplicitRoutes home_cd store2 initial_router = Ok (store2, st)
   /\ Js.toString store2 (Js.get store2 (VRef 1) "report")
      = Some "async function report(id) { this.res.send(id); }"
   /\ getParameterNames store2 (Js.get store2 (VRef 1) "report") = None
   /\ map (fun r => (verb r, path r)) (router st) = [("get", "/home/report")]
   /\ req_params search_request !! "id" = Some (VString "7")
   /\ actionFn (action r) store2 search_request (VRef 30) (VRef 31)
      = Ok {| callee := InstanceMember (VRef 13);
              this := newController (action r) search_request
                        (VRef 30) (VRef 31);
              arguments := [] |})
  /\ (let st := snd (loaded home_cd store4) in
      let r := nth_route st 0 in
      loadImplicitRoutes home_cd store4 initial_router = Ok (store4, st)
      /\ Js.toString store4 (Js.get store4 (VRef 1) "search")
         = Some "function(name, limit = 10) { this.res.json([name, limit]); }"
      /\ getParameterNames store4 (Js.get store4 (VRef 1) "search")
         = Some ["name"; "limit = 10"]
      /\ map (fun r => (verb r, path r)) (router st)
         = [("get", "/home/search/:name/:limit = 10")]
      /\ req_params search_request !! "limit" = Some (VString "5")
      /\ actionFn (action r) store4 search_request (VRef 30) (VRef 31)
         = Ok {| callee := InstanceMember (VRef 2);
                 this := newController (action r) search_request
                           (VRef 30) (VRef 31);
                 arguments := [VString "node"; VUndefined] |}).
Proof. vm_compute. repeat split. Qed.

End Unread.

(** ** The further theorems at the README controllers *)

Section Samples.
Import JsString Pattern Synth Spec Shape Readme Cases.

Lemma getControllerData_word_witness :
  getControllerData (ObjectDef 1) "api/userCONTROLLER.Js"
  = {| controllerDef := ObjectDef 1; controllerName := "api/user";
       viewBaseName := "api/user" |}.
Proof.
  apply (getControllerData_word (ObjectDef 1) "api/user" "CONTROLLER" ".Js").
  - reflexivity.
  - left. reflexivity.
  - reflexivity.
Defined.

Lemma getControllerData_plain_witness :
  getControllerData (ObjectDef 1) "faq.js"
  = {| controllerDef := ObjectDef 1; controllerName := "faq";
       viewBaseName := "faq" |}.
Proof.
  apply (getControllerData_plain (ObjectDef 1) "faq" ".js").
  - reflexivity.
  - intros (pre & tail & Heq & Hci). apply equal_ci_length in Hci.
    apply (f_equal String.length) in Heq. rewrite length_append, Hci in Heq.
    simpl in Heq. lia.
  - intros (pre & tail & Heq & Hci). apply equal_ci_length in Hci.
    apply (f_equal String.length) in Heq. rewrite length_append, Hci in Heq.
    simpl in Heq. lia.
  - reflexivity.
Defined.


Lemma parameterNames_blank_witness :
  parameterNames "index(){ this.render({ }); }" = Some []
  /\ parameterNames "function ( ) { }" = Some [""].
Proof.
  split.
  - apply (parameterNames_blank "index" "" "{ this.render({ }); }");
      reflexivity.
  - apply (parameterNames_blank "function " " " " { }"); reflexivity.
Defined.

Lemma getMethod_explicit_witness :
  getMethod "{ DELETE }  removeUser" true = "delete".
Proof.
  apply (getMethod_explicit " " " " "DELETE" "  removeUser");
    try reflexivity.
  apply list_elem_of_In. simpl. tauto.
Defined.

Lemma resolveAction_padding_witness :
  resolveAction "  postSomething " = resolveAction "postSomething".
Proof.
  apply (resolveAction_padding "  " "postSomething" " "); reflexivity.
Defined.

Lemma loading_keeps_cache_witness :
  let st' := snd (loaded user_cd store0) in
  cache_consistent st' /\ handlers_cached st'
  /\ exists new,
       default [] (classesLoaded st')
       = default [] (classesLoaded initial_router) ++ new
       /\ length new <= 1.
Proof.
  apply (loading_keeps_cache user_cd store0 (fst (loaded user_cd store0))
           initial_router (snd (loaded user_cd store0))).
  - apply initial_consistent.
  - apply initial_consistent.
  - vm_compute. reflexivity.
Defined.

Lemma wrapper_per_instance_witness :
  let st := fold_left (fun st rd => addRoute rd st)
              [actionRouteData home_cd store0 1 "get" VUndefined;
               actionRouteData user_cd store0 9 "index" (VString "user");
               actionRouteData home_cd store0 1 "post" VUndefined]
              initial_router in
  let r1 := nth_route st 0 in
  let r2 := nth_route st 2 in
  rd_instance (w_routeData (h_controllerClass (action r1)))
  = rd_instance (h_routeData (action r1))
  /\ (h_controllerClass (action r1) = h_controllerClass (action r2)
      <-> rd_instance (h_routeData (action r1))
          = rd_instance (h_routeData (action r2))).
Proof.
  intros st r1 r2.
  apply (wrapper_per_instance initial_router
           [actionRouteData home_cd store0 1 "get" VUndefined;
            actionRouteData user_cd store0 9 "index" (VString "user");
            actionRouteData home_cd store0 1 "post" VUndefined] r1 r2).
  - reflexivity.
  - apply (list_elem_of_lookup_2 _ 0). vm_compute. reflexivity.
  - apply (list_elem_of_lookup_2 _ 2). vm_compute. reflexivity.
Defined.

Lemma loaded_route_dispatch_witness :
  let h' := fst (loaded user_cd store0) in
  let r := nth_route (snd (loaded user_cd store0)) 1 in
  let rd := h_routeData (action r) in
  let f := Js.get h' (VRef (rd_instance rd)) (rd_actionName rd) in
  Js.is_function h' f = true
  /\ (rd_actionName rd ∉ context_members ->
      actionFn (action r) h' plain_request (VRef 30) (VRef 31)
      = Ok {| callee := InstanceMember f;
              this := newController (action r) plain_request
                        (VRef 30) (VRef 31);
              arguments :=
                map (fun p => default VUndefined
                                (req_params plain_request !! p))
                    (default [] (getParameterNames h' f)) |}).
Proof.
  apply (loaded_route_dispatch (F := unit) user_cd store0
           (fst (loaded user_cd store0)) initial_router
           (snd (loaded user_cd store0))).
  - apply initial_consistent.
  - apply initial_consistent.
  - vm_compute. reflexivity.
  - apply (list_elem_of_lookup_2 _ 1). vm_compute. reflexivity.
Defined.

Lemma class_actions_witness :
  let h' := fst (loaded user_cd store0) in
  let st' := snd (loaded user_cd store0) in
  exists inst new,
    h' !! inst = Some (construct user_class)
    /\ router st' = router initial_router ++ new
    /\ action_names new
       = List.filter
           (fun k => negb (String.eqb k "constructor")
                     && negb (String.eqb (charAt0 k) "_")
                     && Js.is_function h' (Js.get h' (VRef inst) k))
           (prototype_names user_class)
    /\ Forall (fun r =>
                 rd_instance (h_routeData (action r)) = inst
                 /\ rd_controllerName (h_routeData (action r))
                    = VString (pathControllerName user_cd)) new.
Proof.
  apply (class_actions user_cd user_class store0
           (fst (loaded user_cd store0)) initial_router
           (snd (loaded user_cd store0))).
  - reflexivity.
  - vm_compute. reflexivity.
Defined.

Lemma shadowed_action_not_called_witness :
  let hd := action (nth_route (snd (loaded home_cd store3)) 0) in
  match actionFn (F := unit) hd store3 plain_request (VRef 30) (VRef 31) with
  | Ok inv =>
      (forall v, callee inv <> InstanceMember v)
      /\ this inv = newController hd plain_request (VRef 30) (VRef 31)
      /\ rd_actionName (h_routeData hd) ∈ ["next"; "render"; "constructor"]
  | Throw _ => rd_actionName (h_routeData hd) ∈ ["req"; "res"]
  end.
Proof.
  intros hd.
  apply (shadowed_action_not_called hd store3 plain_request (VRef 30) (VRef 31)).
  apply list_elem_of_In. vm_compute. tauto.
Defined.

Lemma render_primitive_data_witness :
  let ctx := newController (action (nth_route (snd (loaded home_cd store0)) 1))
               plain_request (VRef 30) (VRef 31) in
  render ctx [VString "customView"; VNumber 5]
         {| heap := store0; flash_state := tt |}
  = Throw TypeError.
Proof.
  intros ctx.
  apply (render_primitive_data ctx [VString "customView"; VNumber 5]
           {| heap := store0; flash_state := tt |}); reflexivity.
Defined.

Lemma render_frame_witness :
  let ctx := newController (action (nth_route (snd (loaded home_cd store0)) 1))
               flash_request (VRef 30) (VRef 31) in
  let s : store nat := {| heap := store0; flash_state := 0 |} in
  exists rc s',
    render ctx [VRef 6] s = Ok (rc, s')
    /\ (forall b, b ∈ dom (heap s) -> b <> 6 ->
          heap s' !! b = heap s !! b)
    /\ dom (heap s') = {[ fresh (dom (heap s)) ]} ∪ dom (heap s)
    /\ forall k, k ∉ render_members ->
         Js.get (heap s') (VRef 6) k = Js.get (heap s) (VRef 6) k.
Proof.
  intros ctx s.
  apply (render_frame ctx [VRef 6] s 6).
  - right. split; [reflexivity|]. apply elem_of_dom. vm_compute. eauto.
  - discriminate.
Defined.

Lemma render_view_and_data_witness :
  let ctx := newController (action (nth_route (snd (loaded home_cd store0)) 2))
               plain_request (VRef 30) (VRef 31) in
  let s : store unit := {| heap := store0; flash_state := tt |} in
  exists s',
    render ctx [VString "customView"; VRef 7] s
    = Ok ({| rc_res := ctx_res ctx;
             rc_view := ctx_viewBaseName ctx +:+ "/"
                        +:+ view_argument (ctx_actionName ctx)
                              [VString "customView"; VRef 7];
             rc_data := VRef 7 |}, s').
Proof.
  intros ctx s.
  apply (render_view_and_data ctx [VString "customView"; VRef 7] s 7).
  - right. split; [reflexivity|]. apply elem_of_dom. vm_compute. eauto.
  - discriminate.
Defined.

Lemma controller_segment_witness :
  exists w,
    router (addRoute
              (actionRouteData home_cd store0 1 "getWithParameters" VUndefined)
              initial_router)
    = [ {| verb := "get"; path := "/home/withParameters/:foo/:bar";
           action := {| h_routeData :=
                          actionRouteData home_cd store0 1
                            "getWithParameters" VUndefined;
                        h_controllerClass := w |} |} ].
Proof.
  apply (controller_segment home_cd store0 1 "getWithParameters" VUndefined
           initial_router); vm_compute; reflexivity.
Defined.

Lemma flat_render_controllerName_witness :
  let r := nth_route (snd (loaded home_cd store0)) 1 in
  let s : store unit := {| heap := store0; flash_state := tt |} in
  exists rc s',
    render (newController (action r) plain_request (VRef 30) (VRef 31))
           [VRef 7] s = Ok (rc, s')
    /\ rc_data rc = VRef 7
    /\ Js.get (heap s') (VRef 7) "controllerName"
       = if Js.truthy (Js.get (heap s) (VRef 7) "controllerName")
         then Js.get (heap s) (VRef 7) "controllerName"
         else VUndefined.
Proof.
  intros r s.
  apply (flat_render_controllerName (F := unit) home_cd 1 store0 store0
           initial_router (snd (loaded home_cd store0))).
  - reflexivity.
  - reflexivity.
  - vm_compute. reflexivity.
  - apply (list_elem_of_lookup_2 _ 1). vm_compute. reflexivity.
  - discriminate.
  - right. split; [reflexivity|]. apply elem_of_dom. vm_compute. eauto.
Defined.

Lemma unparsed_signature_total_witness :
  getParameterNames store2 (Js.get store2 (VRef 1) "report") = None
  /\ exists r,
       r ∈ router (setObjectActions home_cd 1 1 store2 initial_router)
       /\ rd_args (h_routeData (action r)) = None
       /\ (verb r, path r) = ("get", "/home/report")
       /\ forall (req : request unit) (res next : value),
            actionFn (action r) store2 req res next
            = Ok {| callee := InstanceMember (VRef 13);
                    this := newController (action r) req res next;
                    arguments := [] |}.
Proof.
  assert (cache_consistent initial_router) as Hc by apply initial_consistent.
  assert (Js.toString store2 (Js.get store2 (VRef 1) "report")
          = Some "async function report(id) { this.res.send(id); }") as Hsrc
    by (vm_compute; reflexivity).
  assert (signaturePattern "async function report(id) { this.res.send(id); }"
          = None) as Hpat by (vm_compute; reflexivity).
  destruct (unparsed_signature_total (F := unit) home_cd store2 1 1
              initial_router "report"
              "async function report(id) { this.res.send(id); }"
              Hc eq_refl Hsrc Hpat) as (Hnone & Hflat & _).
  split; [exact Hnone|].
  destruct Hflat as (r & Hin & _ & Ha & Hv & Hp & Hcall).
  { apply list_elem_of_In. vm_compute. tauto. }
  exists r. split; [exact Hin|]. split; [exact Ha|]. split.
  { rewrite Hv, Hp. reflexivity. }
  intros req res next. apply (proj2 (Hcall req res next store2)).
  - intros Hname. apply list_elem_of_In in Hname. simpl in Hname.
    destruct Hname as [H|[H|[H|[H|[H|[]]]]]]; discriminate H.
  - vm_compute. reflexivity.
Defined.

Lemma declared_parameters_routed_witness :
  let req : request unit :=
    {| req_params := {[ "bar" := VString "b"; "foo" := VString "a" ]};
       req_session := VUndefined; req_flash := FlashUndefined |} in
  exists r,
    r ∈ router (setObjectActions home_cd 1 1 store0 initial_router)
    /\ (verb r, path r) = ("get", "/home/withParameters/:foo/:bar")
    /\ actionFn (action r) store0 req (VRef 30) (VRef 31)
       = Ok {| callee := InstanceMember (VRef 5);
               this := newController (action r) req (VRef 30) (VRef 31);
               arguments := [VString "a"; VString "b"] |}.
Proof.
  intros req.
  assert (cache_consistent initial_router) as Hc by apply initial_consistent.
  assert (Js.toString store0 (Js.get store0 (VRef 1) "getWithParameters")
          = Some ("function" +:+ "("
                  +:+ (EmptyString
                       +:+ parameter_list "foo" [(EmptyString, " ", "bar")]
                       +:+ EmptyString)
                  +:+ ")" +:+ " { this.res.json({ foo: foo, bar: bar }); }"))
    as Hsrc by (vm_compute; reflexivity).
  assert (plain_parameters "foo" [(EmptyString, " ", "bar")]) as Hplain
    by (split; [reflexivity|repeat constructor]).
  destruct (declared_parameters_routed (F := unit) home_cd store0 1 1
              initial_router "getWithParameters" "function" EmptyString "foo"
              EmptyString " { this.res.json({ foo: foo, bar: bar }); }"
              [(EmptyString, " ", "bar")]
              Hc eq_refl Hsrc eq_refl eq_refl eq_refl Hplain) as [Hflat _].
  destruct Hflat as (r & Hin & _ & Hv & Hp & Hcall).
  { apply list_elem_of_In. vm_compute. tauto. }
  exists r. split; [exact Hin|]. split.
  { rewrite Hv, Hp. reflexivity. }
  apply (proj2 (Hcall req (VRef 30) (VRef 31) store0)).
  - intros Hname. apply list_elem_of_In in Hname. simpl in Hname.
    destruct Hname as [H|[H|[H|[H|[H|[]]]]]]; discriminate H.
  - vm_compute. reflexivity.
Defined.

End Samples.
